(** * Mattermost message-action adapter

    A shallow embedding of [extensions/mattermost/src/actions.ts]: account
    and client resolution, capability gating ([listActions]), the action
    dispatcher ([handleMattermostAction]) and the normalisation of remote
    list responses, together with the properties the adapter is specified
    to have.

    JavaScript strings are modelled as [string]; [undefined] is [None] for
    typed optional values, and parameter bags ([Record<string, unknown>])
    are finite maps from keys to [JsValue]s.  Remote calls are the visible
    effect of the dispatcher: a dispatch is a [Prog] that awaits remote
    calls one after the other, and [run] executes it against a remote,
    recording the calls that were issued. *)

From stdpp Require Import gmap strings list fin_maps.
From Stdlib Require Import ZArith.
From Stdlib Require Strings.Ascii.
Import (notations) Stdlib.Strings.Ascii.

Local Open Scope Z_scope.
Local Set Warnings "-register-all".

(** ** Strings *)

Module Str.

Definition is_empty (s : string) : bool :=
  match s with EmptyString => true | String _ _ => false end.

(** [String.prototype.trimStart], on the ASCII white space characters. *)
Fixpoint trimStart (s : string) : string :=
  match s with
  | EmptyString => EmptyString
  | String c s' => if Ascii.is_space c then trimStart s' else s
  end.

(** [String.prototype.trimEnd]. *)
Fixpoint trimEnd (s : string) : string :=
  match s with
  | EmptyString => EmptyString
  | String c s' =>
      let t := trimEnd s' in
      if Ascii.is_space c && is_empty t then EmptyString else String c t
  end.

(** [String.prototype.trim]. *)
Definition trim (s : string) : string := trimEnd (trimStart s).

(** [s.replace(/\/+$/, empty)]: drop every trailing slash. *)
Fixpoint stripTrailingSlashes (s : string) : string :=
  match s with
  | EmptyString => EmptyString
  | String c s' =>
      let t := stripTrailingSlashes s' in
      if Ascii.eqb c "/"%char && is_empty t then EmptyString else String c t
  end.

(** A string of white space only (the empty string included). *)
Fixpoint isBlank (s : string) : bool :=
  match s with
  | EmptyString => true
  | String c s' => Ascii.is_space c && isBlank s'
  end.

Fixpoint startsWith (p s : string) : bool :=
  match p, s with
  | EmptyString, _ => true
  | String a p', String b s' => Ascii.eqb a b && startsWith p' s'
  | String _ _, EmptyString => false
  end.

(** [hay.includes(needle)]: what an error "mentions". *)
Fixpoint includes (needle hay : string) : bool :=
  startsWith needle hay ||
  match hay with
  | EmptyString => false
  | String _ hay' => includes needle hay'
  end.

End Str.

(** ** JavaScript values, errors and results *)

Inductive JsValue : Type :=
| JUndefined
| JNull
| JBool (b : bool)
| JNum (n : Z)
| JStr (s : string)
| JArr (items : list JsValue)
| JObj (fields : list (string * JsValue)).

(** A parameter bag: [params[key]] is [params !! key], a key that is not
    there reading as [undefined]. *)
Abbreviation Params := (gmap string JsValue).

(** Truthiness of an optional string ([Boolean(s)], [!s], [s || d]). *)
Definition truthy (s : option string) : bool :=
  match s with
  | Some v => negb (Str.is_empty v)
  | None => false
  end.

(** The source throws plain [Error]s; the kind records which part of the
    adapter raised it, after the error kinds of the design: parameter
    readers raise [ValidationError], account and client resolution
    [ConfigurationError], the dispatcher's last line
    [UnsupportedActionError], and a rejected remote call is a
    [RemoteApiError].  [TypeError] is the one the JavaScript runtime itself
    throws, for a property read on [null]. *)
Inductive ErrorKind : Type :=
| ValidationError
| ConfigurationError
| UnsupportedActionError
| RemoteApiError
| TypeError.

Record JsError : Type := mkError { errKind : ErrorKind; errMessage : string }.

Inductive Result (A : Type) : Type :=
| Ok (a : A)
| Err (e : JsError).

Arguments Ok {A} a.
Arguments Err {A} e.

Definition result_bind {A B} (r : Result A) (k : A → Result B) : Result B :=
  match r with
  | Ok a => k a
  | Err e => Err e
  end.

(** [to ? v : undefined] and friends, as JavaScript values. *)
Definition optStr (o : option string) : JsValue :=
  match o with Some s => JStr s | None => JUndefined end.

Definition optNum (o : option Z) : JsValue :=
  match o with Some n => JNum n | None => JUndefined end.

Definition optStrs (o : option (list string)) : JsValue :=
  match o with Some l => JArr (JStr <$> l) | None => JUndefined end.

(** ** Parameter readers of the plugin SDK *)

(** Modelled from the spec: [readStringParam] of [openclaw/plugin-sdk],
    which is not among the adapter's sources.  A string parameter is read trimmed
    (unless the call says [trim: false]); a value that is not a string, or
    that is blank and not read with [allowEmpty], counts as missing. *)
Definition readStringValue (params : Params) (key : string)
    (trim allowEmpty : bool) : option string :=
  match params !! key with
  | Some (JStr raw) =>
      let value := if trim then Str.trim raw else raw in
      if Str.is_empty value && negb allowEmpty then None else Some value
  | _ => None
  end.

(** Modelled from the spec: [readStringParam(params, key)] and
    [readStringParam(params, key, { trim: false })], the optional reads:
    a missing parameter is [undefined]. *)
Definition readStringParam (params : Params) (key : string) : option string :=
  readStringValue params key true false.

Definition readStringParamRaw (params : Params) (key : string) : option string :=
  readStringValue params key false false.

(** Modelled from the spec: [readStringParam(params, key, { required: true })]
    (and with [allowEmpty: true]): a required parameter that is missing
    fails with a validation error naming the field. *)
Definition readRequiredStringParam (params : Params) (key : string)
    (allowEmpty : bool) : Result string :=
  match readStringValue params key true allowEmpty with
  | Some v => Ok v
  | None => Err (mkError ValidationError (key +:+ " required"))
  end.

(** Modelled from the spec: [readNumberParam(params, key, { integer: true })]
    of the plugin SDK, an optional integer. *)
Definition readNumberParam (params : Params) (key : string) : option Z :=
  match params !! key with
  | Some (JNum n) => Some n
  | _ => None
  end.

(** Modelled from the spec: [readReactionParams] of the plugin SDK.  A
    reaction needs an emoji; [remove] is honoured when it is the boolean
    [true], and removing without an emoji fails with the message the
    caller passes. *)
Definition readReactionParams (params : Params) (removeErrorMessage : string)
    : Result (string * bool) :=
  let remove :=
    match params !! "remove" with
    | Some (JBool b) => b
    | _ => false
    end in
  match readStringParam params "emoji" with
  | Some emoji => Ok (emoji, remove)
  | None =>
      if remove then Err (mkError ValidationError removeErrorMessage)
      else Err (mkError ValidationError "emoji required")
  end.

(** Modelled from the spec: [createActionGate] of the plugin SDK.  A gate
    is open unless its flag is explicitly [false]; a flag that is absent
    (or [undefined]) leaves it open. *)
Definition createActionGate (actions : option (gmap string bool))
    (gate : string) : bool :=
  match actions with
  | Some flags =>
      match flags !! gate with
      | Some false => false
      | _ => true
      end
  | None => true
  end.

(** Modelled from the spec: [jsonResult] of the plugin SDK wraps the
    payload as the result's [details]. *)
Record AgentToolResult : Type := jsonResult { details : JsValue }.

(** [{ ...base, [k]: v }]: assigning a property keeps the place of a key
    that is already there. *)
Fixpoint objAssign (fields : list (string * JsValue)) (k : string) (v : JsValue)
    : list (string * JsValue) :=
  match fields with
  | [] => [(k, v)]
  | (k', v') :: rest =>
      if String.eqb k' k then (k, v) :: rest
      else (k', v') :: objAssign rest k v
  end.

(** [{ ...base, ...extra }]. *)
Definition objSpread (base extra : list (string * JsValue))
    : list (string * JsValue) :=
  foldl (λ acc kv, objAssign acc kv.1 kv.2) base extra.

(** The keys [JSON.stringify] writes for an object: a property whose value
    is [undefined] is left out. *)
Definition serializedKeys (v : JsValue) : list string :=
  match v with
  | JObj fields =>
      (List.filter (λ kv, match kv.2 with JUndefined => false | _ => true end)
         fields).*1
  | _ => []
  end.

(** [obj[key]]. *)
Fixpoint getField (fields : list (string * JsValue)) (key : string) : JsValue :=
  match fields with
  | [] => JUndefined
  | (k, v) :: rest => if String.eqb k key then v else getField rest key
  end.

(** ** Configuration and accounts *)

Record MattermostConfig : Type := {
  mm_enabled : option bool;
  mm_botToken : option string;
  mm_baseUrl : option string;
  mm_actions : option (gmap string bool)
}.

Record ChannelsConfig : Type := { mattermost : option MattermostConfig }.

Record OpenClawConfig : Type := { channels : option ChannelsConfig }.

Record MattermostAccount : Type := {
  accountId : string;
  botToken : option string;
  baseUrl : option string;
  enabled : bool
}.

(** ** Remote client *)

Record MattermostClient : Type := {
  clientBaseUrl : string;
  apiBaseUrl : string;
  token : string
}.

(** Modelled from the spec: [normalizeMattermostBaseUrl] of
    [mattermost/client.ts] strips the trailing slashes of the base URL. *)
Definition normalizeMattermostBaseUrl (url : option string) : option string :=
  Str.stripTrailingSlashes <$> url.

(** Modelled from the spec: [createMattermostClient] of
    [mattermost/client.ts]: the handle bundles the normalised base URL, the
    versioned API path under it and the credential, and an empty base URL
    is a configuration error. *)
Definition createMattermostClient (baseUrl botToken : string)
    : Result MattermostClient :=
  let normalized := Str.stripTrailingSlashes baseUrl in
  if Str.is_empty normalized then
    Err (mkError ConfigurationError "Mattermost baseUrl is required")
  else
    Ok {| clientBaseUrl := normalized;
          apiBaseUrl := normalized +:+ "/api/v4";
          token := botToken |}.

(** ** Remote payloads *)

Record MattermostUser : Type := { user_id : string; user_username : option string }.

Record MattermostPost : Type := {
  post_id : string;
  post_user_id : option string;
  post_message : option string;
  post_create_at : option Z;
  post_root_id : option string;
  post_file_ids : option (list string)
}.

Record MattermostReaction : Type := {
  reaction_user_id : option string;
  reaction_post_id : option string;
  reaction_emoji_name : option string;
  reaction_create_at : option Z
}.

(** A list response [{ order, posts }]; the [posts] object is kept with
    its keys in insertion order. *)
Record MattermostPostList : Type := {
  order : list string;
  posts : list (string * MattermostPost)
}.

(** [result.posts[id]]. *)
Fixpoint lookupPost (posts : list (string * MattermostPost)) (id : string)
    : option MattermostPost :=
  match posts with
  | [] => None
  | (k, post) :: rest => if String.eqb k id then Some post else lookupPost rest id
  end.

(** ** Remote calls and dispatch programs *)

(** The operations of [mattermost/client.ts] and [mattermost/send.ts] that
    the dispatcher awaits, with their arguments. *)
Inductive RemoteCall : Type :=
| FetchMattermostMe (client : MattermostClient)
| AddMattermostReaction (client : MattermostClient) (userId postId emojiName : string)
| RemoveMattermostReaction (client : MattermostClient) (userId postId emojiName : string)
| GetMattermostReactions (client : MattermostClient) (postId : string)
| GetMattermostChannelPosts (client : MattermostClient) (channelId : string)
    (perPage : option Z) (before after : option string)
| UpdateMattermostPost (client : MattermostClient) (postId message : string)
| DeleteMattermostPost (client : MattermostClient) (postId : string)
| PinMattermostPost (client : MattermostClient) (postId : string)
| UnpinMattermostPost (client : MattermostClient) (postId : string)
| GetPinnedMattermostPosts (client : MattermostClient) (channelId : string)
| SendMessageMattermost (to message : string)
    (account mediaUrl replyToId : option string).

(** What each call resolves to.  [getMattermostReactions] resolves to the
    array of the post's reactions, or to [null] ([None]): the server answers
    [null], not an empty array, for a post that has no reactions
    ([mattermost/actions.integration.test.ts], lines 61-63). *)
Definition response (c : RemoteCall) : Type :=
  match c with
  | FetchMattermostMe _ => MattermostUser
  | AddMattermostReaction _ _ _ _ => MattermostReaction
  | RemoveMattermostReaction _ _ _ _ => unit
  | GetMattermostReactions _ _ => option (list MattermostReaction)
  | GetMattermostChannelPosts _ _ _ _ _ => MattermostPostList
  | UpdateMattermostPost _ _ _ => MattermostPost
  | DeleteMattermostPost _ _ => unit
  | PinMattermostPost _ _ => unit
  | UnpinMattermostPost _ _ => unit
  | GetPinnedMattermostPosts _ _ => MattermostPostList
  | SendMessageMattermost _ _ _ _ _ => list (string * JsValue)
  end.

(** An [async] body: it returns, throws, or awaits a remote call and goes
    on with what the call resolved to. *)
Inductive Prog (A : Type) : Type :=
| Ret (a : A)
| Throw (e : JsError)
| Await (c : RemoteCall) (k : response c → Prog A).

Arguments Ret {A} a.
Arguments Throw {A} e.
Arguments Await {A} c k.

Fixpoint prog_bind {A B} (p : Prog A) (f : A → Prog B) : Prog B :=
  match p with
  | Ret a => f a
  | Throw e => Throw e
  | Await c k => Await c (λ r, prog_bind (k r) f)
  end.

#[export] Instance prog_ret : MRet Prog := @Ret.
#[export] Instance prog_mbind : MBind Prog := λ A B f p, prog_bind p f.

(** A synchronous step that may throw. *)
Definition lift {A} (r : Result A) : Prog A :=
  match r with
  | Ok a => Ret a
  | Err e => Throw e
  end.

Definition await (c : RemoteCall) : Prog (response c) := Await c Ret.

(** The remote side: given the calls issued so far, it resolves or rejects
    the next one. *)
Definition Remote : Type := list RemoteCall → ∀ c : RemoteCall, Result (response c).

(** Running a dispatch: the calls issued, in order, and the settled
    result.  A rejected call rejects the dispatch. *)
Fixpoint run {A} (remote : Remote) (issued : list RemoteCall) (p : Prog A)
    : list RemoteCall * Result A :=
  match p with
  | Ret a => (issued, Ok a)
  | Throw e => (issued, Err e)
  | Await c k =>
      match remote issued c with
      | Ok r => run remote (issued ++ [c]) (k r)
      | Err e => (issued ++ [c], Err e)
      end
  end.

(** ** Result normalisation *)

(** The message object built for one id of [order] by the [read] action,
    [post] being [result.posts[id]]. *)
Definition normalizeMessage (post : option MattermostPost) : JsValue :=
  JObj [
    ("id", optStr (post_id <$> post));
    ("userId", optStr (post ≫= post_user_id));
    ("message", optStr (post ≫= post_message));
    ("createdAt", optNum (post ≫= post_create_at));
    ("rootId",
      optStr (let root := post ≫= post_root_id in
              if truthy root then root else None));
    ("fileIds",
      optStrs (match post ≫= post_file_ids with
               | Some (f :: fs) => Some (f :: fs)
               | _ => None
               end))
  ].

(** The pin object built for one id of [order] by the [list-pins] action. *)
Definition normalizePin (post : option MattermostPost) : JsValue :=
  JObj [
    ("id", optStr (post_id <$> post));
    ("userId", optStr (post ≫= post_user_id));
    ("message", optStr (post ≫= post_message));
    ("createdAt", optNum (post ≫= post_create_at))
  ].

(** [result.order.map((id) => ...)] of the [read] action. *)
Definition normalizeMessages (result : MattermostPostList) : list JsValue :=
  (λ id, normalizeMessage (lookupPost (posts result) id)) <$> order result.

(** [result.order.map((id) => ...)] of the [list-pins] action. *)
Definition normalizePins (result : MattermostPostList) : list JsValue :=
  (λ id, normalizePin (lookupPost (posts result) id)) <$> order result.

Definition normalizeReaction (r : MattermostReaction) : JsValue :=
  JObj [
    ("userId", optStr (reaction_user_id r));
    ("emoji", optStr (reaction_emoji_name r));
    ("createdAt", optNum (reaction_create_at r))
  ].

(** [reactions.map((r) => ...)] on what [getMattermostReactions] resolved
    to: the property read [reactions.map] on [null] throws the runtime's
    [TypeError] (the wording of the message is the engine's). *)
Definition mapReactions (reactions : option (list MattermostReaction))
    : Result (list JsValue) :=
  match reactions with
  | Some rs => Ok (normalizeReaction <$> rs)
  | None =>
      Err (mkError TypeError "Cannot read properties of null (reading 'map')")
  end.

(** ** The adapter *)

Definition dquote : string := String "034"%char EmptyString.

Record ActionContext : Type := {
  ctx_action : string;
  ctx_params : Params;
  ctx_cfg : OpenClawConfig;
  ctx_accountId : option string
}.


Definition resolveChannelId (params : Params) : Result string :=
  match readStringParam params "channelId" with
  | Some channelId => Ok channelId
  | None => readRequiredStringParam params "to" false
  end.

(** [new Set(...).add(x)], the set kept in insertion order. *)
Definition setAdd (x : string) (s : list string) : list string :=
  if bool_decide (x ∈ s) then s else s ++ [x].


(** [Boolean(account.botToken && account.baseUrl)]. *)
Definition hasCredentials (account : MattermostAccount) : bool :=
  truthy (botToken account) && truthy (baseUrl account).

Section Adapter.

(** The account resolver of [mattermost/accounts.ts] is not among the
    sources; the adapter is embedded over any resolver. *)
Variable listEnabledMattermostAccounts : OpenClawConfig → list MattermostAccount.
Variable resolveMattermostAccount :
  OpenClawConfig → option string → Result MattermostAccount.

Definition resolveClient (cfg : OpenClawConfig) (account : option string)
    : Result (MattermostClient * string) :=
  result_bind (resolveMattermostAccount cfg account) (λ account,
    let token := Str.trim <$> botToken account in
    if negb (truthy token) then
      Err (mkError ConfigurationError
             ("Mattermost bot token missing for account " +:+ dquote
                +:+ accountId account +:+ dquote))
    else
      let baseUrl := normalizeMattermostBaseUrl (baseUrl account) in
      if negb (truthy baseUrl) then
        Err (mkError ConfigurationError
               ("Mattermost baseUrl missing for account " +:+ dquote
                  +:+ accountId account +:+ dquote))
      else
        result_bind
          (createMattermostClient (default EmptyString baseUrl)
             (default EmptyString token))
          (λ client, Ok (client, accountId account))).

(** [ctx.accountId ?? readStringParam(params, "accountId")]. *)
Definition dispatchAccount (account : option string) (params : Params)
    : option string :=
  match account with
  | Some a => Some a
  | None => readStringParam params "accountId"
  end.

Definition handleMattermostAction (ctx : ActionContext) : Prog AgentToolResult :=
  let action := ctx_action ctx in
  let params := ctx_params ctx in
  let cfg := ctx_cfg ctx in
  let account := dispatchAccount (ctx_accountId ctx) params in
  if String.eqb action "send" then
    target ← lift (readRequiredStringParam params "to" false);
    message ← lift (readRequiredStringParam params "message" true);
    let mediaUrl := readStringParamRaw params "media" in
    let replyTo := readStringParam params "replyTo" in
    result ← await (SendMessageMattermost target message account mediaUrl replyTo);
    mret (jsonResult (JObj (objSpread [("ok", JBool true)] result)))
  else if String.eqb action "react" then
    messageId ← lift (readRequiredStringParam params "messageId" false);
    '(emoji, remove) ← lift (readReactionParams params
        "Removing a Mattermost reaction requires an emoji name.");
    '(client, _) ← lift (resolveClient cfg account);
    botUser ← await (FetchMattermostMe client);
    if (remove : bool) then
      _ ← await (RemoveMattermostReaction client (user_id botUser) messageId emoji);
      mret (jsonResult (JObj [("ok", JBool true); ("removed", JBool true);
                              ("emoji", JStr emoji)]))
    else
      _ ← await (AddMattermostReaction client (user_id botUser) messageId emoji);
      mret (jsonResult (JObj [("ok", JBool true); ("added", JStr emoji)]))
  else if String.eqb action "reactions" then
    messageId ← lift (readRequiredStringParam params "messageId" false);
    '(client, _) ← lift (resolveClient cfg account);
    reactions ← await (GetMattermostReactions client messageId);
    entries ← lift (mapReactions reactions);
    mret (jsonResult (JObj [("ok", JBool true); ("messageId", JStr messageId);
                            ("reactions", JArr entries)]))
  else if String.eqb action "read" then
    channelId ← lift (resolveChannelId params);
    let limit := readNumberParam params "limit" in
    let before := readStringParam params "before" in
    let after := readStringParam params "after" in
    '(client, _) ← lift (resolveClient cfg account);
    result ← await (GetMattermostChannelPosts client channelId limit before after);
    let messages := normalizeMessages result in
    mret (jsonResult (JObj [("ok", JBool true); ("channelId", JStr channelId);
                            ("messages", JArr messages)]))
  else if String.eqb action "edit" then
    messageId ← lift (readRequiredStringParam params "messageId" false);
    message ← lift (readRequiredStringParam params "message" false);
    '(client, _) ← lift (resolveClient cfg account);
    updated ← await (UpdateMattermostPost client messageId message);
    mret (jsonResult (JObj [("ok", JBool true); ("messageId", JStr (post_id updated));
                            ("message", optStr (post_message updated))]))
  else if String.eqb action "delete" then
    messageId ← lift (readRequiredStringParam params "messageId" false);
    '(client, _) ← lift (resolveClient cfg account);
    _ ← await (DeleteMattermostPost client messageId);
    mret (jsonResult (JObj [("ok", JBool true); ("messageId", JStr messageId);
                            ("deleted", JBool true)]))
  else if String.eqb action "pin" then
    messageId ← lift (readRequiredStringParam params "messageId" false);
    '(client, _) ← lift (resolveClient cfg account);
    _ ← await (PinMattermostPost client messageId);
    mret (jsonResult (JObj [("ok", JBool true); ("messageId", JStr messageId);
                            ("pinned", JBool true)]))
  else if String.eqb action "unpin" then
    messageId ← lift (readRequiredStringParam params "messageId" false);
    '(client, _) ← lift (resolveClient cfg account);
    _ ← await (UnpinMattermostPost client messageId);
    mret (jsonResult (JObj [("ok", JBool true); ("messageId", JStr messageId);
                            ("unpinned", JBool true)]))
  else if String.eqb action "list-pins" then
    channelId ← lift (resolveChannelId params);
    '(client, _) ← lift (resolveClient cfg account);
    result ← await (GetPinnedMattermostPosts client channelId);
    let pins := normalizePins result in
    mret (jsonResult (JObj [("ok", JBool true); ("channelId", JStr channelId);
                            ("pins", JArr pins)]))
  else
    Throw (mkError UnsupportedActionError
             ("Action " +:+ action +:+ " is not supported for Mattermost.")).

(** [mattermostMessageActions.handleAction]. *)
Definition handleAction (action : string) (params : Params)
    (cfg : OpenClawConfig) (account : option string) : Prog AgentToolResult :=
  handleMattermostAction
    {| ctx_action := action; ctx_params := params; ctx_cfg := cfg;
       ctx_accountId := account |}.

(** [mattermostMessageActions.listActions]. *)
Definition listActions (cfg : OpenClawConfig) : list string :=
  let accounts :=
    List.filter hasCredentials (listEnabledMattermostAccounts cfg) in
  if Nat.eqb (length accounts) 0 then []
  else
    let mmConfig := channels cfg ≫= mattermost in
    let gate := createActionGate (mmConfig ≫= mm_actions) in
    let actions := ["send"] in
    let actions :=
      if gate "reactions" then setAdd "reactions" (setAdd "react" actions)
      else actions in
    let actions :=
      if gate "messages" then setAdd "delete" (setAdd "edit" (setAdd "read" actions))
      else actions in
    let actions :=
      if gate "pins" then setAdd "list-pins" (setAdd "unpin" (setAdd "pin" actions))
      else actions in
    actions.

End Adapter.

(** ** The account resolver of the unit tests

    [actions.test.ts] runs the adapter over a single-account resolver that
    takes the token and base URL of [channels.mattermost] as they are. *)

Definition testListEnabledMattermostAccounts (cfg : OpenClawConfig)
    : list MattermostAccount :=
  match channels cfg ≫= mattermost with
  | None => []
  | Some mm =>
      match mm_enabled mm with
      | Some false => []
      | _ =>
          [ {| accountId := "default";
               botToken := Some (default "bot-tok" (mm_botToken mm));
               baseUrl := Some (default "https://mm.test" (mm_baseUrl mm));
               enabled := true |} ]
      end
  end.

Definition testResolveMattermostAccount (cfg : OpenClawConfig)
    (account : option string) : Result MattermostAccount :=
  let mm := channels cfg ≫= mattermost in
  Ok {| accountId := default "default" account;
        botToken := Some (default "bot-tok" (mm ≫= mm_botToken));
        baseUrl := Some (default "https://mm.test" (mm ≫= mm_baseUrl));
        enabled := true |}.

(** [mmCfg(overrides)] of the unit tests. *)
Definition mmCfg (tok url : string) (actions : option (gmap string bool))
    : OpenClawConfig :=
  {| channels := Some {| mattermost := Some
       {| mm_enabled := None; mm_botToken := Some tok; mm_baseUrl := Some url;
          mm_actions := actions |} |} |}.

(** The remote of the unit tests: every call resolves, with the payloads
    the tests stub. *)
Definition testRemote : Remote :=
  λ _ c,
    match c as c0 return Result (response c0) with
    | FetchMattermostMe _ =>
        Ok {| user_id := "bot-user-id"; user_username := Some "bot" |}
    | AddMattermostReaction _ _ _ _ =>
        Ok {| reaction_user_id := Some "bot-user-id";
              reaction_post_id := Some "post-1";
              reaction_emoji_name := Some "thumbsup";
              reaction_create_at := None |}
    | RemoveMattermostReaction _ _ _ _ => Ok ()
    | GetMattermostReactions _ _ =>
        Ok (Some [ {| reaction_user_id := Some "u1";
                      reaction_post_id := Some "post-1";
                      reaction_emoji_name := Some "thumbsup";
                      reaction_create_at := Some 1000 |} ])
    | GetMattermostChannelPosts _ _ _ _ _ =>
        Ok {| order := ["p1"; "p2"];
              posts :=
                [ ("p1", {| post_id := "p1"; post_user_id := Some "u1";
                            post_message := Some "first";
                            post_create_at := Some 1000;
                            post_root_id := None; post_file_ids := None |});
                  ("p2", {| post_id := "p2"; post_user_id := Some "u2";
                            post_message := Some "second";
                            post_create_at := Some 2000;
                            post_root_id := None; post_file_ids := None |}) ] |}
    | UpdateMattermostPost _ _ _ =>
        Ok {| post_id := "post-1"; post_user_id := None;
              post_message := Some "edited"; post_create_at := None;
              post_root_id := None; post_file_ids := None |}
    | DeleteMattermostPost _ _ => Ok ()
    | PinMattermostPost _ _ => Ok ()
    | UnpinMattermostPost _ _ => Ok ()
    | GetPinnedMattermostPosts _ _ =>
        Ok {| order := ["pin-1"];
              posts :=
                [ ("pin-1", {| post_id := "pin-1"; post_user_id := Some "u1";
                               post_message := Some "pinned msg";
                               post_create_at := Some 2000;
                               post_root_id := None; post_file_ids := None |}) ] |}
    | SendMessageMattermost _ _ _ _ _ =>
        Ok [ ("messageId", JStr "new-msg-1"); ("channelId", JStr "ch-1") ]
    end.

(** ** Vocabulary of the properties *)

(** The nine actions of the dispatch table. *)
Definition actionTable : list string :=
  ["send"; "react"; "reactions"; "read"; "edit"; "delete"; "pin"; "unpin";
   "list-pins"].

(** [cfg.channels?.mattermost?.actions], the gate flags of a configuration. *)
Definition gateFlags (cfg : OpenClawConfig) : option (gmap string bool) :=
  (channels cfg ≫= mattermost) ≫= mm_actions.

(** The actions advertised for given gate states. *)
Definition gatedActions (reactions messages pins : bool) : list string :=
  ["send"]
  ++ (if reactions then ["react"; "reactions"] else [])
  ++ (if messages then ["read"; "edit"; "delete"] else [])
  ++ (if pins then ["pin"; "unpin"; "list-pins"] else []).

(** [actions] without the names of [group]. *)
Definition without (group actions : list string) : list string :=
  List.filter (λ x, negb (bool_decide (x ∈ group))) actions.

(** A parameter that is missing: not there, or not a string. *)
Definition missingParam (params : Params) (key : string) : bool :=
  match params !! key with
  | Some (JStr _) => false
  | _ => true
  end.

(** A parameter that is missing or blank. *)
Definition blankParam (params : Params) (key : string) : bool :=
  match params !! key with
  | Some (JStr raw) => Str.isBlank raw
  | _ => true
  end.

(** The required string parameters an action validates, in the order it
    validates them; [read] and [list-pins] need [to] when no [channelId]
    is given. *)
Definition requiredParams (action : string) (params : Params) : list string :=
  if String.eqb action "send" then ["to"; "message"]
  else if String.eqb action "react" then ["messageId"; "emoji"]
  else if String.eqb action "reactions" then ["messageId"]
  else if String.eqb action "edit" then ["messageId"; "message"]
  else if String.eqb action "delete" || String.eqb action "pin"
          || String.eqb action "unpin" then ["messageId"]
  else if String.eqb action "read" || String.eqb action "list-pins" then
    if blankParam params "channelId" then ["to"] else []
  else [].

(** A required parameter the dispatcher turns down: one that is missing or
    blank, the [message] of [send] only when it is missing. *)
Definition rejectedParam (action : string) (params : Params) (key : string) : bool :=
  if String.eqb action "send" && String.eqb key "message"
  then missingParam params key
  else blankParam params key.

(** The first required parameter that is turned down, if any. *)
Definition firstRejected (action : string) (params : Params) : option string :=
  List.find (rejectedParam action params) (requiredParams action params).

(** An account whose bot token is absent, empty or white space only. *)
Definition tokenMissing (account : MattermostAccount) : bool :=
  match botToken account with
  | Some tok => Str.isBlank tok
  | None => true
  end.

(** An account whose base URL is absent or normalises to the empty string. *)
Definition baseUrlMissing (account : MattermostAccount) : bool :=
  negb (truthy (normalizeMattermostBaseUrl (baseUrl account))).

(** [value[key]] of a result object. *)
Definition fieldOf (value : JsValue) (key : string) : JsValue :=
  match value with
  | JObj fields => getField fields key
  | _ => JUndefined
  end.

(** The client a remote call is made with; the send collaborator takes no
    client, it resolves the account itself. *)
Definition callClient (c : RemoteCall) : option MattermostClient :=
  match c with
  | FetchMattermostMe client
  | AddMattermostReaction client _ _ _
  | RemoveMattermostReaction client _ _ _
  | GetMattermostReactions client _
  | GetMattermostChannelPosts client _ _ _ _
  | UpdateMattermostPost client _ _
  | DeleteMattermostPost client _
  | PinMattermostPost client _
  | UnpinMattermostPost client _
  | GetPinnedMattermostPosts client _ => Some client
  | SendMessageMattermost _ _ _ _ _ => None
  end.

(** The calls that add or remove a reaction. *)
Definition isReactionCall (c : RemoteCall) : bool :=
  match c with
  | AddMattermostReaction _ _ _ _ | RemoveMattermostReaction _ _ _ _ => true
  | _ => false
  end.

(** The remote of the unit tests, with the calls picked by [bad] rejected. *)
Definition testRemoteRejecting (bad : RemoteCall → bool) (e : JsError) : Remote :=
  λ issued c, if bad c then Err e else testRemote issued c.

(** The remote of the unit tests, asked about posts that have no reactions:
    as the server does, it answers [null]. *)
Definition testRemoteNoReactions : Remote :=
  λ issued c,
    match c as c0 return Result (response c0) with
    | GetMattermostReactions _ _ => Ok None
    | c0 => testRemote issued c0
    end.

(** * Properties *)

(** ** Strings *)

Lemma is_empty_trimEnd (s : string) :
  Str.is_empty (Str.trimEnd s) = Str.isBlank s.
Proof.
  induction s as [|c s IH]; simpl; [done|].
  rewrite <- IH. by destruct (Ascii.is_space c), (Str.is_empty (Str.trimEnd s)).
Qed.

Lemma isBlank_trimStart (s : string) :
  Str.isBlank (Str.trimStart s) = Str.isBlank s.
Proof.
  induction s as [|c s IH]; simpl; [done|].
  destruct (Ascii.is_space c) eqn:Hc; simpl; [done|]. by rewrite Hc.
Qed.

(** A string trims to the empty string exactly when it is blank. *)
Lemma is_empty_trim (s : string) : Str.is_empty (Str.trim s) = Str.isBlank s.
Proof. unfold Str.trim. by rewrite is_empty_trimEnd, isBlank_trimStart. Qed.


Lemma startsWith_app (n s : string) : Str.startsWith n (n +:+ s) = true.
Proof.
  induction n as [|c n IH]; simpl; [done|].
  by rewrite Ascii.eqb_refl, IH.
Qed.

Lemma includes_prefix (n s : string) : Str.includes n (n +:+ s) = true.
Proof.
  destruct (n +:+ s) eqn:E; simpl; rewrite <- E, startsWith_app; done.
Qed.

Lemma includes_app_r (n p h : string) :
  Str.includes n h = true → Str.includes n (p +:+ h) = true.
Proof.
  intros H. induction p as [|c p IH]; simpl; [done|].
  fold (Str.includes n (p +:+ h)). rewrite IH. apply orb_true_r.
Qed.

(** A message mentions every piece it is assembled from. *)
Lemma includes_middle (n p s : string) : Str.includes n (p +:+ n +:+ s) = true.
Proof. apply includes_app_r, includes_prefix. Qed.

(** ** Parameter readers *)

Lemma readStringParam_None (params : Params) (key : string) :
  readStringParam params key = None ↔ blankParam params key = true.
Proof.
  unfold readStringParam, readStringValue, blankParam.
  destruct (params !! key) as [[]|]; try done.
  rewrite is_empty_trim. simpl. destruct (Str.isBlank s); simpl; split; congruence.
Qed.

Lemma readStringParam_Some (params : Params) (key raw : string) :
  params !! key = Some (JStr raw) → Str.isBlank raw = false →
  readStringParam params key = Some (Str.trim raw).
Proof.
  intros Hk Hb. unfold readStringParam, readStringValue.
  by rewrite Hk, is_empty_trim, Hb.
Qed.

Lemma readRequired_blank (params : Params) (key : string) :
  blankParam params key = true →
  readRequiredStringParam params key false
  = Err (mkError ValidationError (key +:+ " required")).
Proof.
  intros H%readStringParam_None. unfold readRequiredStringParam.
  unfold readStringParam in H. by rewrite H.
Qed.

Lemma readRequired_present (params : Params) (key : string) :
  blankParam params key = false →
  ∃ v, readRequiredStringParam params key false = Ok v
       ∧ readStringParam params key = Some v.
Proof.
  intros H. unfold readRequiredStringParam.
  destruct (readStringValue params key true false) as [v|] eqn:E.
  - by exists v.
  - apply readStringParam_None in E. congruence.
Qed.

Lemma readRequired_some (params : Params) (key raw : string) :
  params !! key = Some (JStr raw) → Str.isBlank raw = false →
  readRequiredStringParam params key false = Ok (Str.trim raw).
Proof.
  intros Hk Hb. unfold readRequiredStringParam.
  pose proof (readStringParam_Some _ _ _ Hk Hb) as H.
  unfold readStringParam in H. by rewrite H.
Qed.

Lemma readRequired_allowEmpty_missing (params : Params) (key : string) :
  missingParam params key = true →
  readRequiredStringParam params key true
  = Err (mkError ValidationError (key +:+ " required")).
Proof.
  unfold missingParam, readRequiredStringParam, readStringValue.
  by destruct (params !! key) as [[]|].
Qed.

(** ** Capability gating *)

Lemma gate_set_false (flags : gmap string bool) (g : string) :
  createActionGate (Some (<[g := false]> flags)) g = false.
Proof. unfold createActionGate. by rewrite lookup_insert_eq. Qed.

Lemma gate_set_other (flags : option (gmap string bool)) (g g' : string) (b : bool) :
  g ≠ g' →
  createActionGate (Some (<[g := b]> (default ∅ flags))) g'
  = createActionGate flags g'.
Proof.
  intros Hne. unfold createActionGate. rewrite lookup_insert_ne by done.
  destruct flags as [flags|]; simpl; [done|]. by rewrite lookup_empty.
Qed.

Lemma filter_hasCredentials_nil (accounts : list MattermostAccount) :
  (∀ a, a ∈ accounts → hasCredentials a = false) →
  List.filter hasCredentials accounts = [].
Proof.
  induction accounts as [|a l IH]; intros H; simpl; [done|].
  rewrite (H a) by apply list_elem_of_here.
  apply IH. intros b Hb. apply H. by apply list_elem_of_further.
Qed.

Lemma filter_hasCredentials_cons (accounts : list MattermostAccount)
    (a : MattermostAccount) :
  a ∈ accounts → hasCredentials a = true →
  ∃ b l, List.filter hasCredentials accounts = b :: l.
Proof.
  intros Hin Ha.
  destruct (List.filter hasCredentials accounts) as [|b l] eqn:E; [|eauto].
  assert (In a (List.filter hasCredentials accounts)) as Hf.
  { apply filter_In. split; [by apply list_elem_of_In|done]. }
  rewrite E in Hf. destruct Hf.
Qed.

(** With a usable account, [listActions] is the gated list. *)
Lemma listActions_gated
    (accountsOf : OpenClawConfig → list MattermostAccount) (cfg : OpenClawConfig)
    (a : MattermostAccount) :
  a ∈ accountsOf cfg → hasCredentials a = true →
  listActions accountsOf cfg
  = gatedActions (createActionGate (gateFlags cfg) "reactions")
      (createActionGate (gateFlags cfg) "messages")
      (createActionGate (gateFlags cfg) "pins").
Proof.
  intros Hin Ha. unfold listActions.
  destruct (filter_hasCredentials_cons _ _ Hin Ha) as (b & l & ->). simpl.
  fold (gateFlags cfg).
  by destruct (createActionGate (gateFlags cfg) "reactions"),
       (createActionGate (gateFlags cfg) "messages"),
       (createActionGate (gateFlags cfg) "pins").
Qed.

(** C1.  For a configuration with at least one enabled account that has a
    non-empty bot token and base URL, [listActions] returns [send] plus
    exactly the groups whose gate is open, without repetition: with all
    gates open exactly the nine actions of the table, and setting the
    [reactions] flag to [false] removes exactly [react] and [reactions]
    from what was returned before, the [messages] flag exactly [read],
    [edit] and [delete], the [pins] flag exactly [pin], [unpin] and
    [list-pins]. *)
Theorem listActions_send_plus_gated_groups
    (accountsOf : OpenClawConfig → list MattermostAccount) (cfg : OpenClawConfig)
    (a : MattermostAccount) :
  a ∈ accountsOf cfg → hasCredentials a = true →
  let gate := createActionGate (gateFlags cfg) in
  (∀ x, x ∈ listActions accountsOf cfg ↔
        x = "send"
        ∨ (gate "reactions" = true ∧ x ∈ ["react"; "reactions"])
        ∨ (gate "messages" = true ∧ x ∈ ["read"; "edit"; "delete"])
        ∨ (gate "pins" = true ∧ x ∈ ["pin"; "unpin"; "list-pins"]))
  ∧ NoDup (listActions accountsOf cfg)
  ∧ (gate "reactions" = true → gate "messages" = true → gate "pins" = true →
     listActions accountsOf cfg = actionTable)
  ∧ (∀ cfg' a', a' ∈ accountsOf cfg' → hasCredentials a' = true →
       (gateFlags cfg' = Some (<["reactions" := false]> (default ∅ (gateFlags cfg))) →
        listActions accountsOf cfg'
        = without ["react"; "reactions"] (listActions accountsOf cfg))
       ∧ (gateFlags cfg' = Some (<["messages" := false]> (default ∅ (gateFlags cfg))) →
          listActions accountsOf cfg'
          = without ["read"; "edit"; "delete"] (listActions accountsOf cfg))
       ∧ (gateFlags cfg' = Some (<["pins" := false]> (default ∅ (gateFlags cfg))) →
          listActions accountsOf cfg'
          = without ["pin"; "unpin"; "list-pins"] (listActions accountsOf cfg))).
Proof.
  intros Hin Ha gate. rewrite (listActions_gated _ _ _ Hin Ha). fold gate.
  split; [|split; [|split]].
  - intros x. destruct (gate "reactions"), (gate "messages"), (gate "pins");
      unfold gatedActions; simpl; rewrite ?elem_of_cons, ?elem_of_nil;
      intuition discriminate.
  - destruct (gate "reactions"), (gate "messages"), (gate "pins");
      unfold gatedActions; simpl; repeat constructor;
      rewrite ?elem_of_cons, ?elem_of_nil; intuition discriminate.
  - by intros -> -> ->.
  - intros cfg' a' Hin' Ha'. rewrite (listActions_gated _ _ _ Hin' Ha').
    repeat split; intros ->;
      rewrite gate_set_false, !gate_set_other by done; fold gate;
      by destruct (gate "reactions"), (gate "messages"), (gate "pins").
Qed.

Lemma listActions_send_plus_gated_groups_witness :
  listActions testListEnabledMattermostAccounts
    (mmCfg "bot-tok" "https://mm.test" None) = actionTable
  ∧ listActions testListEnabledMattermostAccounts
      (mmCfg "bot-tok" "https://mm.test" (Some {["reactions" := false]}))
    = without ["react"; "reactions"] actionTable.
Proof.
  pose (acct := {| accountId := "default"; botToken := Some "bot-tok";
                   baseUrl := Some "https://mm.test"; enabled := true |}).
  destruct (listActions_send_plus_gated_groups testListEnabledMattermostAccounts
              (mmCfg "bot-tok" "https://mm.test" None) acct)
    as (_ & _ & Hall & Hoff).
  - apply list_elem_of_here.
  - reflexivity.
  - assert (listActions testListEnabledMattermostAccounts
              (mmCfg "bot-tok" "https://mm.test" None) = actionTable) as Hopen
      by (apply Hall; reflexivity).
    split; [exact Hopen|].
    rewrite <- Hopen.
    apply (Hoff (mmCfg "bot-tok" "https://mm.test" (Some {["reactions" := false]}))
             acct).
    + apply list_elem_of_here.
    + reflexivity.
    + reflexivity.
Defined.

(** C2.  When no enabled account has both a non-empty bot token and a
    non-empty base URL (there is no account, or each one lacks its token
    or its base URL), [listActions] returns the empty list, whatever the
    gate flags of the configuration are. *)
Theorem listActions_without_usable_account
    (accountsOf : OpenClawConfig → list MattermostAccount) (cfg : OpenClawConfig) :
  (∀ a, a ∈ accountsOf cfg →
        truthy (botToken a) = false ∨ truthy (baseUrl a) = false) →
  listActions accountsOf cfg = [].
Proof.
  intros H. unfold listActions.
  rewrite filter_hasCredentials_nil; [done|].
  intros a Ha. unfold hasCredentials.
  destruct (H a Ha) as [-> | ->]; [done|apply andb_false_r].
Qed.

Lemma listActions_without_usable_account_witness :
  listActions testListEnabledMattermostAccounts
    (mmCfg EmptyString "https://mm.test" (Some {["reactions" := true]})) = [].
Proof.
  apply listActions_without_usable_account.
  intros a Ha. apply list_elem_of_singleton in Ha. subst a. by left.
Defined.

(** ** The dispatcher *)

Arguments readStringValue : simpl never.
Arguments readStringParam : simpl never.
Arguments readStringParamRaw : simpl never.
Arguments readRequiredStringParam : simpl never.
Arguments readNumberParam : simpl never.
Arguments readReactionParams : simpl never.
Arguments resolveChannelId : simpl never.
Arguments resolveClient : simpl never.
Arguments dispatchAccount : simpl never.
Arguments normalizeMessages : simpl never.
Arguments normalizePins : simpl never.

(** Unfolds a dispatch down to its first reader or remote call. *)
Ltac dispatch :=
  unfold handleAction, handleMattermostAction, mbind, prog_mbind, mret, prog_ret,
    await; simpl.

(** Case analysis on an action name, along the dispatcher's [if] chain. *)
Ltac case_action action :=
  destruct (String.eqb_spec action "send") as [->|?];
  [|destruct (String.eqb_spec action "react") as [->|?];
  [|destruct (String.eqb_spec action "reactions") as [->|?];
  [|destruct (String.eqb_spec action "read") as [->|?];
  [|destruct (String.eqb_spec action "edit") as [->|?];
  [|destruct (String.eqb_spec action "delete") as [->|?];
  [|destruct (String.eqb_spec action "pin") as [->|?];
  [|destruct (String.eqb_spec action "unpin") as [->|?];
  [|destruct (String.eqb_spec action "list-pins") as [->|?]]]]]]]]].

Lemma handleAction_unsupported
    (resolveAccount : OpenClawConfig → option string → Result MattermostAccount)
    (action : string) (params : Params) (cfg : OpenClawConfig)
    (account : option string) :
  action ∉ actionTable →
  handleAction resolveAccount action params cfg account
  = Throw (mkError UnsupportedActionError
             ("Action " +:+ action +:+ " is not supported for Mattermost.")).
Proof.
  intros Hnot. unfold handleAction, handleMattermostAction. simpl.
  case_action action;
    try (exfalso; apply Hnot; unfold actionTable;
         rewrite ?elem_of_cons; tauto).
  reflexivity.
Qed.

(** C6.  For an action name outside the table of nine, whatever the
    parameters, configuration and account, [handleAction] rejects with an
    unsupported-action error, without any remote call; the message names
    the action and says "not supported". *)
Theorem handleAction_rejects_unknown_action
    (resolveAccount : OpenClawConfig → option string → Result MattermostAccount)
    (remote : Remote) (action : string) (params : Params) (cfg : OpenClawConfig)
    (account : option string) :
  action ∉ actionTable →
  ∃ msg,
    run remote [] (handleAction resolveAccount action params cfg account)
    = ([], Err (mkError UnsupportedActionError msg))
    ∧ Str.includes action msg = true
    ∧ Str.includes "not supported" msg = true.
Proof.
  intros Hnot. rewrite handleAction_unsupported by done.
  eexists. split; [reflexivity|]. split.
  - apply includes_middle.
  - by do 2 apply includes_app_r.
Qed.

Lemma handleAction_rejects_unknown_action_witness :
  ∃ msg,
    run testRemote []
      (handleAction testResolveMattermostAccount "unknownAction" ∅
         (mmCfg "bot-tok" "https://mm.test" None) None)
    = ([], Err (mkError UnsupportedActionError msg))
    ∧ Str.includes "unknownAction" msg = true
    ∧ Str.includes "not supported" msg = true.
Proof.
  apply handleAction_rejects_unknown_action.
  unfold actionTable. rewrite !elem_of_cons, elem_of_nil.
  intros H. repeat destruct H as [H|H]; try discriminate H. exact H.
Defined.

Lemma readReactionParams_blank (params : Params) (removeErrorMessage : string) :
  blankParam params "emoji" = true →
  ∃ msg, readReactionParams params removeErrorMessage
         = Err (mkError ValidationError msg)
         ∧ (msg = removeErrorMessage ∨ msg = "emoji required").
Proof.
  intros H%readStringParam_None. unfold readReactionParams. rewrite H.
  destruct (params !! "remove") as [[| |[]| | | |]|]; eauto.
Qed.

Lemma readReactionParams_some (params : Params) (removeErrorMessage raw : string) :
  params !! "emoji" = Some (JStr raw) → Str.isBlank raw = false →
  readReactionParams params removeErrorMessage
  = Ok (Str.trim raw,
        match params !! "remove" with Some (JBool b) => b | _ => false end).
Proof.
  intros Hk Hb. unfold readReactionParams.
  by rewrite (readStringParam_Some _ _ _ Hk Hb).
Qed.

Lemma resolveChannelId_blank (params : Params) :
  blankParam params "channelId" = true → blankParam params "to" = true →
  resolveChannelId params = Err (mkError ValidationError "to required").
Proof.
  intros Hc%readStringParam_None Ht. unfold resolveChannelId. rewrite Hc.
  by rewrite readRequired_blank.
Qed.

(** A dispatch whose first required parameter is turned down stops there. *)
Lemma handleAction_first_rejected
    (resolveAccount : OpenClawConfig → option string → Result MattermostAccount)
    (remote : Remote) (action : string) (params : Params) (cfg : OpenClawConfig)
    (account : option string) (key : string) :
  firstRejected action params = Some key →
  ∃ msg,
    run remote [] (handleAction resolveAccount action params cfg account)
    = ([], Err (mkError ValidationError msg))
    ∧ Str.includes key msg = true.
Proof.
  unfold firstRejected, requiredParams, rejectedParam. intros Hfirst.
  revert Hfirst. case_action action; simpl; intros Hfirst.
  - (* send *)
    destruct (blankParam params "to") eqn:Hto.
    + injection Hfirst as <-. dispatch. rewrite readRequired_blank by done.
      simpl. eauto using includes_prefix.
    + destruct (missingParam params "message") eqn:Hmsg; [|done].
      injection Hfirst as <-. dispatch.
      destruct (readRequired_present _ _ Hto) as (v & -> & _). simpl.
      rewrite readRequired_allowEmpty_missing by done.
      simpl. eauto using includes_prefix.
  - (* react *)
    destruct (blankParam params "messageId") eqn:Hid.
    + injection Hfirst as <-. dispatch. rewrite readRequired_blank by done.
      simpl. eauto using includes_prefix.
    + destruct (blankParam params "emoji") eqn:Hemoji; [|done].
      injection Hfirst as <-. dispatch.
      destruct (readRequired_present _ _ Hid) as (v & -> & _). simpl.
      destruct (readReactionParams_blank params
                  "Removing a Mattermost reaction requires an emoji name." Hemoji)
        as (msg & -> & [-> | ->]); simpl; eauto.
  - (* reactions *)
    destruct (blankParam params "messageId") eqn:Hid; [|done].
    injection Hfirst as <-. dispatch. rewrite readRequired_blank by done.
    simpl. eauto using includes_prefix.
  - (* read *)
    destruct (blankParam params "channelId") eqn:Hc; [|done]. simpl in Hfirst.
    destruct (blankParam params "to") eqn:Hto; [|done].
    injection Hfirst as <-. dispatch. rewrite resolveChannelId_blank by done.
    simpl. eauto.
  - (* edit *)
    destruct (blankParam params "messageId") eqn:Hid.
    + injection Hfirst as <-. dispatch. rewrite readRequired_blank by done.
      simpl. eauto using includes_prefix.
    + destruct (blankParam params "message") eqn:Hmsg; [|done].
      injection Hfirst as <-. dispatch.
      destruct (readRequired_present _ _ Hid) as (v & -> & _). simpl.
      rewrite readRequired_blank by done.
      simpl. eauto using includes_prefix.
  - (* delete *)
    destruct (blankParam params "messageId") eqn:Hid; [|done].
    injection Hfirst as <-. dispatch. rewrite readRequired_blank by done.
    simpl. eauto using includes_prefix.
  - (* pin *)
    destruct (blankParam params "messageId") eqn:Hid; [|done].
    injection Hfirst as <-. dispatch. rewrite readRequired_blank by done.
    simpl. eauto using includes_prefix.
  - (* unpin *)
    destruct (blankParam params "messageId") eqn:Hid; [|done].
    injection Hfirst as <-. dispatch. rewrite readRequired_blank by done.
    simpl. eauto using includes_prefix.
  - (* list-pins *)
    destruct (blankParam params "channelId") eqn:Hc; [|done]. simpl in Hfirst.
    destruct (blankParam params "to") eqn:Hto; [|done].
    injection Hfirst as <-. dispatch. rewrite resolveChannelId_blank by done.
    simpl. eauto.
  - done.
Qed.

Lemma readRequired_allowEmpty_some (params : Params) (key raw : string) :
  params !! key = Some (JStr raw) →
  readRequiredStringParam params key true = Ok (Str.trim raw).
Proof.
  intros Hk. unfold readRequiredStringParam, readStringValue.
  by rewrite Hk, andb_false_r.
Qed.

(** The claim C5 as it is written fails for the [message] of [send], which
    is read with [allowEmpty]: a [send] whose message is the empty string
    passes validation and reaches the send collaborator. *)
Lemma blank_send_message_is_sent :
  let params : Params :=
    <["to" := JStr "c1"]> (<["message" := JStr EmptyString]> ∅) in
  "message" ∈ requiredParams "send" params
  ∧ blankParam params "message" = true
  ∧ run testRemote []
      (handleAction testResolveMattermostAccount "send" params
         (mmCfg "bot-tok" "https://mm.test" None) None)
    = ([SendMessageMattermost "c1" EmptyString None None None],
       Ok (jsonResult (JObj [("ok", JBool true); ("messageId", JStr "new-msg-1");
                             ("channelId", JStr "ch-1")]))).
Proof.
  intros params. split; [|split].
  - change ("message" ∈ ["to"; "message"]).
    apply list_elem_of_further, list_elem_of_here.
  - reflexivity.
  - reflexivity.
Qed.

(** C5 (amended).  When a required string parameter of the dispatched
    action is missing or blank -- the [message] of [send] only when it is
    missing, a blank one being accepted -- [handleAction] rejects with a
    validation error that names the first such parameter, and no remote
    call is issued.  In particular [react] without an emoji rejects with an
    error mentioning "emoji", and [react] without a message id with one
    mentioning "messageId".  A [send] with a target and a message, blank or
    not, goes to the send collaborator. *)
Theorem handleAction_rejects_missing_required_parameter
    (resolveAccount : OpenClawConfig → option string → Result MattermostAccount)
    (remote : Remote) (params : Params) (cfg : OpenClawConfig)
    (account : option string) :
  (∀ action key,
     firstRejected action params = Some key →
     ∃ msg,
       run remote [] (handleAction resolveAccount action params cfg account)
       = ([], Err (mkError ValidationError msg))
       ∧ Str.includes key msg = true)
  ∧ (blankParam params "messageId" = false → blankParam params "emoji" = true →
     ∃ msg,
       run remote [] (handleAction resolveAccount "react" params cfg account)
       = ([], Err (mkError ValidationError msg))
       ∧ Str.includes "emoji" msg = true)
  ∧ (blankParam params "messageId" = true →
     ∃ msg,
       run remote [] (handleAction resolveAccount "react" params cfg account)
       = ([], Err (mkError ValidationError msg))
       ∧ Str.includes "messageId" msg = true)
  ∧ (∀ target message,
       params !! "to" = Some (JStr target) → Str.isBlank target = false →
       params !! "message" = Some (JStr message) →
       (run remote [] (handleAction resolveAccount "send" params cfg account)).1
       = [SendMessageMattermost (Str.trim target) (Str.trim message)
            (dispatchAccount account params) (readStringParamRaw params "media")
            (readStringParam params "replyTo")]).
Proof.
  split; [|split; [|split]].
  - intros action key. apply handleAction_first_rejected.
  - intros Hid Hemoji. apply handleAction_first_rejected.
    unfold firstRejected, requiredParams, rejectedParam. simpl.
    by rewrite Hid, Hemoji.
  - intros Hid. apply handleAction_first_rejected.
    unfold firstRejected, requiredParams, rejectedParam. simpl.
    by rewrite Hid.
  - intros target message Hto Hblank Hmsg. dispatch.
    rewrite (readRequired_some _ _ _ Hto Hblank). simpl.
    rewrite (readRequired_allowEmpty_some _ _ _ Hmsg). simpl.
    by destruct (remote [] _).
Qed.

Lemma handleAction_rejects_missing_required_parameter_witness :
  (∃ msg,
     run testRemote []
       (handleAction testResolveMattermostAccount "react"
          (<["messageId" := JStr "post-1"]> ∅)
          (mmCfg "bot-tok" "https://mm.test" None) None)
     = ([], Err (mkError ValidationError msg))
     ∧ Str.includes "emoji" msg = true)
  ∧ (∃ msg,
       run testRemote []
         (handleAction testResolveMattermostAccount "react"
            (<["emoji" := JStr "thumbsup"]> ∅)
            (mmCfg "bot-tok" "https://mm.test" None) None)
       = ([], Err (mkError ValidationError msg))
       ∧ Str.includes "messageId" msg = true).
Proof.
  split.
  - apply (handleAction_rejects_missing_required_parameter
             testResolveMattermostAccount testRemote
             (<["messageId" := JStr "post-1"]> ∅)); reflexivity.
  - apply (handleAction_rejects_missing_required_parameter
             testResolveMattermostAccount testRemote
             (<["emoji" := JStr "thumbsup"]> ∅)); reflexivity.
Defined.

(** ** Client resolution *)

Lemma truthy_trimmed_token (account : MattermostAccount) :
  truthy (Str.trim <$> botToken account) = negb (tokenMissing account).
Proof.
  unfold tokenMissing. destruct (botToken account) as [tok|]; simpl; [|done].
  by rewrite is_empty_trim.
Qed.

(** [resolveClient] turns down an account without token or base URL, with
    an error that names it. *)
Lemma resolveClient_missing
    (resolveAccount : OpenClawConfig → option string → Result MattermostAccount)
    (cfg : OpenClawConfig) (account : option string) (acct : MattermostAccount) :
  resolveAccount cfg account = Ok acct →
  tokenMissing acct = true ∨ baseUrlMissing acct = true →
  ∃ msg,
    resolveClient resolveAccount cfg account = Err (mkError ConfigurationError msg)
    ∧ Str.includes (accountId acct) msg = true.
Proof.
  intros Hacct Hbad. unfold resolveClient. rewrite Hacct. simpl.
  rewrite truthy_trimmed_token.
  destruct (tokenMissing acct); simpl.
  - eexists. split; [reflexivity|].
    do 2 apply includes_app_r. apply includes_prefix.
  - destruct Hbad as [?|Hurl]; [done|]. unfold baseUrlMissing in Hurl.
    rewrite Hurl. eexists. split; [reflexivity|].
    do 2 apply includes_app_r. apply includes_prefix.
Qed.


Lemma readReactionParams_present (params : Params) (removeErrorMessage : string) :
  blankParam params "emoji" = false →
  ∃ emoji remove, readReactionParams params removeErrorMessage = Ok (emoji, remove).
Proof.
  intros H. unfold readReactionParams.
  destruct (readStringParam params "emoji") eqn:E; [eauto|].
  apply readStringParam_None in E. congruence.
Qed.

Lemma resolveChannelId_present (params : Params) :
  blankParam params "channelId" = false ∨ blankParam params "to" = false →
  ∃ channel, resolveChannelId params = Ok channel.
Proof.
  intros H. unfold resolveChannelId.
  destruct (readStringParam params "channelId") eqn:E; [eauto|].
  apply readStringParam_None in E.
  destruct H as [H|H]; [congruence|].
  destruct (readRequired_present _ _ H) as (v & -> & _). eauto.
Qed.

(** Once the parameters of an action other than [send] are accepted, the
    next thing the dispatch does is to resolve the client. *)
Lemma handleAction_validated
    (resolveAccount : OpenClawConfig → option string → Result MattermostAccount)
    (action : string) (params : Params) (cfg : OpenClawConfig)
    (account : option string) :
  action ∈ actionTable → action ≠ "send" →
  firstRejected action params = None →
  ∃ k, handleAction resolveAccount action params cfg account
       = prog_bind
           (lift (resolveClient resolveAccount cfg (dispatchAccount account params)))
           k.
Proof.
  unfold firstRejected, requiredParams, rejectedParam. intros Hin Hsend Hfirst.
  revert Hfirst. case_action action; simpl; intros Hfirst; [done|..].
  - destruct (blankParam params "messageId") eqn:Hid; [done|].
    destruct (blankParam params "emoji") eqn:Hemoji; [done|].
    destruct (readRequired_present _ _ Hid) as (v & E & _).
    destruct (readReactionParams_present params
                "Removing a Mattermost reaction requires an emoji name." Hemoji)
      as (emoji & remove & E').
    dispatch. rewrite E. simpl. rewrite E'. simpl. eauto.
  - destruct (blankParam params "messageId") eqn:Hid; [done|].
    destruct (readRequired_present _ _ Hid) as (v & E & _).
    dispatch. rewrite E. simpl. eauto.
  - assert (∃ channel, resolveChannelId params = Ok channel) as [channel E].
    { apply resolveChannelId_present.
      destruct (blankParam params "channelId"); [|by left].
      simpl in Hfirst. destruct (blankParam params "to"); [done|by right]. }
    dispatch. rewrite E. simpl. eauto.
  - destruct (blankParam params "messageId") eqn:Hid; [done|].
    destruct (blankParam params "message") eqn:Hmsg; [done|].
    destruct (readRequired_present _ _ Hid) as (v & E & _).
    destruct (readRequired_present _ _ Hmsg) as (w & E' & _).
    dispatch. rewrite E. simpl. rewrite E'. simpl. eauto.
  - destruct (blankParam params "messageId") eqn:Hid; [done|].
    destruct (readRequired_present _ _ Hid) as (v & E & _).
    dispatch. rewrite E. simpl. eauto.
  - destruct (blankParam params "messageId") eqn:Hid; [done|].
    destruct (readRequired_present _ _ Hid) as (v & E & _).
    dispatch. rewrite E. simpl. eauto.
  - destruct (blankParam params "messageId") eqn:Hid; [done|].
    destruct (readRequired_present _ _ Hid) as (v & E & _).
    dispatch. rewrite E. simpl. eauto.
  - assert (∃ channel, resolveChannelId params = Ok channel) as [channel E].
    { apply resolveChannelId_present.
      destruct (blankParam params "channelId"); [|by left].
      simpl in Hfirst. destruct (blankParam params "to"); [done|by right]. }
    dispatch. rewrite E. simpl. eauto.
  - exfalso. unfold actionTable in Hin. rewrite !elem_of_cons, elem_of_nil in Hin.
    tauto.
Qed.

Lemma filter_hasCredentials_drop (pre post : list MattermostAccount)
    (acct : MattermostAccount) :
  hasCredentials acct = false →
  List.filter hasCredentials (pre ++ acct :: post)
  = List.filter hasCredentials (pre ++ post).
Proof.
  intros H. rewrite !List.filter_app. simpl. by rewrite H.
Qed.

(** The claim C7 as it is written fails twice, here over the account
    resolver of the unit tests.  A dispatch on an account without token
    whose parameters are not valid rejects with a validation error, not a
    configuration error; and an account whose token is white space only is
    turned down by [resolveClient] but kept by the filter of [listActions],
    which tests the token as it is stored. *)
Lemma unusable_account_not_always_configuration_error :
  (tokenMissing {| accountId := "default"; botToken := Some EmptyString;
                   baseUrl := Some "https://mm.test"; enabled := true |} = true
   ∧ testResolveMattermostAccount (mmCfg EmptyString "https://mm.test" None) None
     = Ok {| accountId := "default"; botToken := Some EmptyString;
             baseUrl := Some "https://mm.test"; enabled := true |}
   ∧ run testRemote []
       (handleAction testResolveMattermostAccount "react" ∅
          (mmCfg EmptyString "https://mm.test" None) None)
     = ([], Err (mkError ValidationError "messageId required")))
  ∧ (tokenMissing {| accountId := "default"; botToken := Some " ";
                     baseUrl := Some "https://mm.test"; enabled := true |} = true
     ∧ testListEnabledMattermostAccounts (mmCfg " " "https://mm.test" None)
       = [ {| accountId := "default"; botToken := Some " ";
              baseUrl := Some "https://mm.test"; enabled := true |} ]
     ∧ (∃ msg, resolveClient testResolveMattermostAccount
                 (mmCfg " " "https://mm.test" None) None
               = Err (mkError ConfigurationError msg))
     ∧ listActions testListEnabledMattermostAccounts
         (mmCfg " " "https://mm.test" None) = actionTable).
Proof.
  repeat split; try reflexivity. eexists. reflexivity.
Qed.

(** C7 (amended).  When the resolved account's bot token is empty or white
    space, or its base URL normalises to the empty string, [resolveClient]
    throws a configuration error naming the account.  Hence no dispatch of
    an action other than [send] reaches a remote call on such an account:
    it rejects with that configuration error when its parameters are
    valid, and with the validation error otherwise.  An account whose
    stored token or base URL is empty or absent is filtered out by
    [listActions], which tests the stored values without trimming or
    normalising them. *)
Theorem resolveClient_rejects_account_without_token_or_url
    (accountsOf : OpenClawConfig → list MattermostAccount)
    (resolveAccount : OpenClawConfig → option string → Result MattermostAccount)
    (remote : Remote) (cfg : OpenClawConfig) (acct : MattermostAccount) :
  tokenMissing acct = true ∨ baseUrlMissing acct = true →
  (∀ account,
     resolveAccount cfg account = Ok acct →
     ∃ msg,
       resolveClient resolveAccount cfg account
       = Err (mkError ConfigurationError msg)
       ∧ Str.includes (accountId acct) msg = true)
  ∧ (∀ action params account,
       action ∈ actionTable → action ≠ "send" →
       resolveAccount cfg (dispatchAccount account params) = Ok acct →
       ∃ kind msg,
         run remote [] (handleAction resolveAccount action params cfg account)
         = ([], Err (mkError kind msg))
         ∧ (firstRejected action params = None →
            kind = ConfigurationError ∧ Str.includes (accountId acct) msg = true)
         ∧ (firstRejected action params ≠ None → kind = ValidationError))
  ∧ (truthy (botToken acct) = false ∨ truthy (baseUrl acct) = false →
     ∀ pre post,
       accountsOf cfg = pre ++ acct :: post →
       listActions accountsOf cfg = listActions (λ _, pre ++ post) cfg).
Proof.
  intros Hbad. split; [|split].
  - intros account Hacct. by eapply resolveClient_missing.
  - intros action params account Hin Hsend Hacct.
    destruct (firstRejected action params) as [key|] eqn:Hfirst.
    + destruct (handleAction_first_rejected resolveAccount remote action params
                  cfg account key Hfirst) as (msg & -> & _).
      exists ValidationError, msg. by repeat split.
    + destruct (handleAction_validated resolveAccount action params cfg account
                  Hin Hsend Hfirst) as [k ->].
      destruct (resolveClient_missing _ _ _ _ Hacct Hbad) as (msg & -> & Hmsg).
      exists ConfigurationError, msg. by repeat split.
  - intros Hraw pre post Hlist. unfold listActions. rewrite Hlist.
    rewrite filter_hasCredentials_drop; [done|].
    unfold hasCredentials. destruct Hraw as [-> | ->]; [done|apply andb_false_r].
Qed.

Lemma resolveClient_rejects_account_without_token_or_url_witness :
  (∃ msg,
     resolveClient testResolveMattermostAccount
       (mmCfg " " "https://mm.test" None) None
     = Err (mkError ConfigurationError msg)
     ∧ Str.includes "default" msg = true)
  ∧ (∃ kind msg,
       run testRemote []
         (handleAction testResolveMattermostAccount "delete"
            (<["messageId" := JStr "post-1"]> ∅)
            (mmCfg " " "https://mm.test" None) None)
       = ([], Err (mkError kind msg))
       ∧ (firstRejected "delete" (<["messageId" := JStr "post-1"]> ∅) = None →
          kind = ConfigurationError ∧ Str.includes "default" msg = true)
       ∧ (firstRejected "delete" (<["messageId" := JStr "post-1"]> ∅) ≠ None →
          kind = ValidationError)).
Proof.
  pose (acct := {| accountId := "default"; botToken := Some " ";
                   baseUrl := Some "https://mm.test"; enabled := true |}).
  destruct (resolveClient_rejects_account_without_token_or_url
              testListEnabledMattermostAccounts testResolveMattermostAccount
              testRemote (mmCfg " " "https://mm.test" None) acct)
    as (Hclient & Hdispatch & _).
  - left. reflexivity.
  - split.
    + apply (Hclient None). reflexivity.
    + apply (Hdispatch "delete" (<["messageId" := JStr "post-1"]> ∅) None).
      * unfold actionTable. do 5 apply list_elem_of_further. apply list_elem_of_here.
      * discriminate.
      * reflexivity.
Defined.

(** ** Reactions *)

(** C3.  A [react] with a message id and an emoji that are not blank first
    fetches the bot's own identity, then issues the add-reaction call with
    the bot's user id, the message id as post id and the emoji, and
    returns [{ok: true, added: emoji}]; with [remove: true] the second
    call is the remove-reaction call with the same three fields and the
    result is [{ok: true, removed: true, emoji}].  The message id and the
    emoji are taken as the parameter reader yields them, that is without
    surrounding white space; the client is resolved and the remote
    resolves both calls. *)
Theorem react_adds_or_removes_reaction
    (resolveAccount : OpenClawConfig → option string → Result MattermostAccount)
    (remote : Remote) (params : Params) (cfg : OpenClawConfig)
    (account : option string) (messageId emoji : string)
    (client : MattermostClient) (name : string) (botUser : MattermostUser) :
  params !! "messageId" = Some (JStr messageId) → Str.isBlank messageId = false →
  params !! "emoji" = Some (JStr emoji) → Str.isBlank emoji = false →
  resolveClient resolveAccount cfg (dispatchAccount account params)
  = Ok (client, name) →
  remote [] (FetchMattermostMe client) = Ok botUser →
  (params !! "remove" ≠ Some (JBool true) →
   ∀ reaction,
     remote [FetchMattermostMe client]
       (AddMattermostReaction client (user_id botUser) (Str.trim messageId)
          (Str.trim emoji)) = Ok reaction →
     run remote [] (handleAction resolveAccount "react" params cfg account)
     = ([FetchMattermostMe client;
         AddMattermostReaction client (user_id botUser) (Str.trim messageId)
           (Str.trim emoji)],
        Ok (jsonResult (JObj [("ok", JBool true);
                              ("added", JStr (Str.trim emoji))]))))
  ∧ (params !! "remove" = Some (JBool true) →
     ∀ ack,
       remote [FetchMattermostMe client]
         (RemoveMattermostReaction client (user_id botUser) (Str.trim messageId)
            (Str.trim emoji)) = Ok ack →
       run remote [] (handleAction resolveAccount "react" params cfg account)
       = ([FetchMattermostMe client;
           RemoveMattermostReaction client (user_id botUser) (Str.trim messageId)
             (Str.trim emoji)],
          Ok (jsonResult (JObj [("ok", JBool true); ("removed", JBool true);
                                ("emoji", JStr (Str.trim emoji))])))).
Proof.
  intros Hid Hidb Hemoji Hemojib Hclient Hme.
  assert (∀ remove,
            match params !! "remove" with Some (JBool b) => b | _ => false end
            = remove →
            handleAction resolveAccount "react" params cfg account
            = Await (FetchMattermostMe client) (λ botUser,
                if remove then
                  Await (RemoveMattermostReaction client (user_id botUser)
                           (Str.trim messageId) (Str.trim emoji))
                    (λ _, Ret (jsonResult (JObj [("ok", JBool true);
                                                 ("removed", JBool true);
                                                 ("emoji", JStr (Str.trim emoji))])))
                else
                  Await (AddMattermostReaction client (user_id botUser)
                           (Str.trim messageId) (Str.trim emoji))
                    (λ _, Ret (jsonResult (JObj [("ok", JBool true);
                                                 ("added", JStr (Str.trim emoji))])))))
    as Hprog.
  { intros remove Hremove. dispatch.
    rewrite (readRequired_some _ _ _ Hid Hidb). simpl.
    rewrite (readReactionParams_some _ _ _ Hemoji Hemojib), Hremove. simpl.
    rewrite Hclient. simpl. by destruct remove. }
  split.
  - intros Hremove reaction Hadd. rewrite (Hprog false).
    + simpl. rewrite Hme. simpl. by rewrite Hadd.
    + destruct (params !! "remove") as [[| |[]| | | |]|]; congruence.
  - intros Hremove ack Hdel. rewrite (Hprog true).
    + simpl. rewrite Hme. simpl. by rewrite Hdel.
    + by rewrite Hremove.
Qed.

Lemma react_adds_or_removes_reaction_witness :
  let client := {| clientBaseUrl := "https://mm.test";
                   apiBaseUrl := "https://mm.test/api/v4"; token := "bot-tok" |} in
  run testRemote []
    (handleAction testResolveMattermostAccount "react"
       (<["messageId" := JStr "post-1"]> (<["emoji" := JStr "thumbsup"]> ∅))
       (mmCfg "bot-tok" "https://mm.test" None) None)
  = ([FetchMattermostMe client;
      AddMattermostReaction client "bot-user-id" "post-1" "thumbsup"],
     Ok (jsonResult (JObj [("ok", JBool true); ("added", JStr "thumbsup")])))
  ∧ run testRemote []
      (handleAction testResolveMattermostAccount "react"
         (<["remove" := JBool true]>
            (<["messageId" := JStr "post-1"]> (<["emoji" := JStr "thumbsup"]> ∅)))
         (mmCfg "bot-tok" "https://mm.test" None) None)
    = ([FetchMattermostMe client;
        RemoveMattermostReaction client "bot-user-id" "post-1" "thumbsup"],
       Ok (jsonResult (JObj [("ok", JBool true); ("removed", JBool true);
                             ("emoji", JStr "thumbsup")]))).
Proof.
  intros client. split.
  - refine (proj1 (react_adds_or_removes_reaction testResolveMattermostAccount
             testRemote
             (<["messageId" := JStr "post-1"]> (<["emoji" := JStr "thumbsup"]> ∅))
             (mmCfg "bot-tok" "https://mm.test" None) None "post-1" "thumbsup"
             client "default"
             {| user_id := "bot-user-id"; user_username := Some "bot" |}
             _ _ _ _ _ _) _ _ _); try reflexivity.
    discriminate.
  - refine (proj2 (react_adds_or_removes_reaction testResolveMattermostAccount
             testRemote
             (<["remove" := JBool true]>
                (<["messageId" := JStr "post-1"]> (<["emoji" := JStr "thumbsup"]> ∅)))
             (mmCfg "bot-tok" "https://mm.test" None) None "post-1" "thumbsup"
             client "default"
             {| user_id := "bot-user-id"; user_username := Some "bot" |}
             _ _ _ _ _ _) _ _ _); reflexivity.
Defined.

(** ** Channel resolution and list responses *)

Lemma handleAction_read
    (resolveAccount : OpenClawConfig → option string → Result MattermostAccount)
    (params : Params) (cfg : OpenClawConfig) (account : option string)
    (channel : string) (client : MattermostClient) (name : string) :
  resolveChannelId params = Ok channel →
  resolveClient resolveAccount cfg (dispatchAccount account params)
  = Ok (client, name) →
  handleAction resolveAccount "read" params cfg account
  = Await (GetMattermostChannelPosts client channel (readNumberParam params "limit")
             (readStringParam params "before") (readStringParam params "after"))
      (λ result,
         Ret (jsonResult (JObj [("ok", JBool true); ("channelId", JStr channel);
                                ("messages", JArr (normalizeMessages result))]))).
Proof. intros Hchannel Hclient. dispatch. rewrite Hchannel. simpl. by rewrite Hclient. Qed.

Lemma handleAction_list_pins
    (resolveAccount : OpenClawConfig → option string → Result MattermostAccount)
    (params : Params) (cfg : OpenClawConfig) (account : option string)
    (channel : string) (client : MattermostClient) (name : string) :
  resolveChannelId params = Ok channel →
  resolveClient resolveAccount cfg (dispatchAccount account params)
  = Ok (client, name) →
  handleAction resolveAccount "list-pins" params cfg account
  = Await (GetPinnedMattermostPosts client channel)
      (λ result,
         Ret (jsonResult (JObj [("ok", JBool true); ("channelId", JStr channel);
                                ("pins", JArr (normalizePins result))]))).
Proof. intros Hchannel Hclient. dispatch. rewrite Hchannel. simpl. by rewrite Hclient. Qed.

(** C8.  [read] and [list-pins] resolve their channel from [channelId]
    when it is there and not blank, whatever [to] holds; from [to] when
    [channelId] is absent (or blank); and fail with a validation error,
    before any remote call, when both are missing or blank.  The resolved
    channel is the one of the remote call and of the result. *)
Theorem channelId_takes_precedence_over_to
    (resolveAccount : OpenClawConfig → option string → Result MattermostAccount)
    (remote : Remote) (params : Params) (cfg : OpenClawConfig)
    (account : option string) :
  (∀ channelId,
     params !! "channelId" = Some (JStr channelId) →
     Str.isBlank channelId = false →
     resolveChannelId params = Ok (Str.trim channelId))
  ∧ (∀ target,
       blankParam params "channelId" = true →
       params !! "to" = Some (JStr target) → Str.isBlank target = false →
       resolveChannelId params = Ok (Str.trim target))
  ∧ (blankParam params "channelId" = true → blankParam params "to" = true →
     ∃ msg,
       resolveChannelId params = Err (mkError ValidationError msg)
       ∧ run remote [] (handleAction resolveAccount "read" params cfg account)
         = ([], Err (mkError ValidationError msg))
       ∧ run remote [] (handleAction resolveAccount "list-pins" params cfg account)
         = ([], Err (mkError ValidationError msg)))
  ∧ (∀ channel client name,
       resolveChannelId params = Ok channel →
       resolveClient resolveAccount cfg (dispatchAccount account params)
       = Ok (client, name) →
       (∀ result,
          remote [] (GetMattermostChannelPosts client channel
                       (readNumberParam params "limit")
                       (readStringParam params "before")
                       (readStringParam params "after")) = Ok result →
          run remote [] (handleAction resolveAccount "read" params cfg account)
          = ([GetMattermostChannelPosts client channel
                (readNumberParam params "limit")
                (readStringParam params "before")
                (readStringParam params "after")],
             Ok (jsonResult
                   (JObj [("ok", JBool true); ("channelId", JStr channel);
                          ("messages", JArr (normalizeMessages result))]))))
       ∧ (∀ result,
            remote [] (GetPinnedMattermostPosts client channel) = Ok result →
            run remote []
              (handleAction resolveAccount "list-pins" params cfg account)
            = ([GetPinnedMattermostPosts client channel],
               Ok (jsonResult
                     (JObj [("ok", JBool true); ("channelId", JStr channel);
                            ("pins", JArr (normalizePins result))]))))).
Proof.
  split; [|split; [|split]].
  - intros channelId Hc Hb. unfold resolveChannelId.
    by rewrite (readStringParam_Some _ _ _ Hc Hb).
  - intros target Hc%readStringParam_None Ht Hb. unfold resolveChannelId.
    rewrite Hc. by apply readRequired_some.
  - intros Hc Ht. exists "to required".
    pose proof (resolveChannelId_blank _ Hc Ht) as E.
    split; [done|]. split; dispatch; by rewrite E.
  - intros channel client name Hchannel Hclient. split; intros result Hres.
    + rewrite (handleAction_read _ _ _ _ _ _ _ Hchannel Hclient). simpl.
      by rewrite Hres.
    + rewrite (handleAction_list_pins _ _ _ _ _ _ _ Hchannel Hclient). simpl.
      by rewrite Hres.
Qed.

Lemma channelId_takes_precedence_over_to_witness :
  resolveChannelId
    (<["channelId" := JStr "explicit"]> (<["to" := JStr "fallback"]> ∅))
  = Ok "explicit"
  ∧ resolveChannelId (<["to" := JStr "fallback"]> ∅) = Ok "fallback"
  ∧ ∃ msg,
      resolveChannelId ∅ = Err (mkError ValidationError msg)
      ∧ run testRemote []
          (handleAction testResolveMattermostAccount "read" ∅
             (mmCfg "bot-tok" "https://mm.test" None) None)
        = ([], Err (mkError ValidationError msg))
      ∧ run testRemote []
          (handleAction testResolveMattermostAccount "list-pins" ∅
             (mmCfg "bot-tok" "https://mm.test" None) None)
        = ([], Err (mkError ValidationError msg)).
Proof.
  split; [|split].
  - exact (proj1 (channelId_takes_precedence_over_to testResolveMattermostAccount
             testRemote
             (<["channelId" := JStr "explicit"]> (<["to" := JStr "fallback"]> ∅))
             (mmCfg "bot-tok" "https://mm.test" None) None)
             "explicit" eq_refl eq_refl).
  - exact (proj1 (proj2 (channelId_takes_precedence_over_to
             testResolveMattermostAccount testRemote
             (<["to" := JStr "fallback"]> ∅)
             (mmCfg "bot-tok" "https://mm.test" None) None))
             "fallback" eq_refl eq_refl eq_refl).
  - exact (proj1 (proj2 (proj2 (channelId_takes_precedence_over_to
             testResolveMattermostAccount testRemote ∅
             (mmCfg "bot-tok" "https://mm.test" None) None)))
             eq_refl eq_refl).
Defined.

(** With distinct keys, [posts[id]] does not depend on the order in which
    the keys were inserted. *)
Lemma lookupPost_Permutation (posts posts' : list (string * MattermostPost))
    (id : string) :
  NoDup posts.*1 → posts ≡ₚ posts' → lookupPost posts id = lookupPost posts' id.
Proof.
  intros Hnodup Hperm. induction Hperm as [|[k post] l l' Hperm IH
                                           |[k1 post1] [k2 post2] l
                                           |l1 l2 l3 Hperm1 IH1 Hperm2 IH2].
  - done.
  - simpl in *. apply NoDup_cons in Hnodup as [_ Hnodup].
    destruct (String.eqb k id); [done|]. by apply IH.
  - simpl in *. apply NoDup_cons in Hnodup as [Hne _].
    apply not_elem_of_cons in Hne as [Hne _].
    destruct (String.eqb_spec k2 id), (String.eqb_spec k1 id); congruence.
  - rewrite IH1 by done. apply IH2. by rewrite <- Hperm1.
Qed.

(** [posts[id]] is the post stored under the key [id] (the keys of an
    object are distinct). *)
Lemma lookupPost_elem_of (posts : list (string * MattermostPost))
    (id : string) (post : MattermostPost) :
  NoDup posts.*1 → (id, post) ∈ posts → lookupPost posts id = Some post.
Proof.
  induction posts as [|[k p] rest IH]; simpl; intros Hnodup Hin.
  - by apply elem_of_nil in Hin.
  - apply NoDup_cons in Hnodup as [Hk Hnodup].
    apply elem_of_cons in Hin as [[= <- <-]|Hin].
    + by rewrite String.eqb_refl.
    + destruct (String.eqb_spec k id) as [->|_]; [|by apply IH].
      destruct Hk. by apply (list_elem_of_fmap_2 fst rest (id, post)).
Qed.

(** C4.  The messages of [read] and the pins of [list-pins] follow the
    [order] list of the response: one element per id of [order], at the
    place of that id and built from the post of that id.  With the post
    that [posts] stores under an id ([posts] having distinct keys, as the
    keys of an object are), the element at the place of that id carries
    the id, user id, message and creation time of that very post; hence,
    when every id of [order] has its post and the post bears its id, the
    ids of the messages, and of the pins, read in sequence are [order]
    itself.  Responses whose [posts] objects hold the same entries in
    another insertion order normalise to the
    same sequence.  In a message, a [root_id] that is
    missing or empty and a [file_ids] that is missing or empty leave
    [rootId] and [fileIds] undefined, hence out of the serialised result;
    they are emitted only with a non-empty value. *)
Theorem normalization_follows_order (result : MattermostPostList) :
  (length (normalizeMessages result) = length (order result)
   ∧ ∀ i id,
       order result !! i = Some id →
       normalizeMessages result !! i
       = Some (normalizeMessage (lookupPost (posts result) id)))
  ∧ (length (normalizePins result) = length (order result)
     ∧ ∀ i id,
         order result !! i = Some id →
         normalizePins result !! i
         = Some (normalizePin (lookupPost (posts result) id)))
  ∧ (NoDup (posts result).*1 →
     (∀ i id post,
        order result !! i = Some id → (id, post) ∈ posts result →
        normalizeMessages result !! i
        = Some (JObj [("id", JStr (post_id post));
                      ("userId", optStr (post_user_id post));
                      ("message", optStr (post_message post));
                      ("createdAt", optNum (post_create_at post));
                      ("rootId",
                       match post_root_id post with
                       | Some (String c root) => JStr (String c root)
                       | _ => JUndefined
                       end);
                      ("fileIds",
                       match post_file_ids post with
                       | Some (file :: files) => JArr (JStr <$> file :: files)
                       | _ => JUndefined
                       end)])
        ∧ normalizePins result !! i
          = Some (JObj [("id", JStr (post_id post));
                        ("userId", optStr (post_user_id post));
                        ("message", optStr (post_message post));
                        ("createdAt", optNum (post_create_at post))]))
     ∧ ((∀ id, id ∈ order result →
           ∃ post, (id, post) ∈ posts result ∧ post_id post = id) →
        (λ entry, fieldOf entry "id") <$> normalizeMessages result
        = JStr <$> order result
        ∧ (λ entry, fieldOf entry "id") <$> normalizePins result
          = JStr <$> order result))
  ∧ (∀ posts',
       NoDup (posts result).*1 → posts result ≡ₚ posts' →
       normalizeMessages {| order := order result; posts := posts' |}
       = normalizeMessages result
       ∧ normalizePins {| order := order result; posts := posts' |}
         = normalizePins result)
  ∧ (∀ post : option MattermostPost,
       (truthy (post ≫= post_root_id) = false →
        fieldOf (normalizeMessage post) "rootId" = JUndefined
        ∧ "rootId" ∉ serializedKeys (normalizeMessage post))
       ∧ (∀ root,
            post ≫= post_root_id = Some root → root ≠ EmptyString →
            fieldOf (normalizeMessage post) "rootId" = JStr root)
       ∧ (post ≫= post_file_ids = None ∨ post ≫= post_file_ids = Some [] →
          fieldOf (normalizeMessage post) "fileIds" = JUndefined
          ∧ "fileIds" ∉ serializedKeys (normalizeMessage post))
       ∧ (∀ file files,
            post ≫= post_file_ids = Some (file :: files) →
            fieldOf (normalizeMessage post) "fileIds"
            = JArr (JStr <$> file :: files))).
Proof.
  split; [|split; [|split; [|split]]].
  - unfold normalizeMessages. split; [apply length_fmap|].
    intros i id Hi. by rewrite list_lookup_fmap, Hi.
  - unfold normalizePins. split; [apply length_fmap|].
    intros i id Hi. by rewrite list_lookup_fmap, Hi.
  - intros Hnodup. split.
    + intros i id post Hi Hin. unfold normalizeMessages, normalizePins.
      rewrite !list_lookup_fmap, Hi. simpl.
      rewrite (lookupPost_elem_of _ _ _ Hnodup Hin).
      destruct post as [pid u m c [[|a root]|] [[|file files]|]]; by simpl.
    + intros Hall. unfold normalizeMessages, normalizePins.
      rewrite <- !list_fmap_compose.
      split; apply list_fmap_ext; intros i id Hi%list_elem_of_lookup_2;
        destruct (Hall id Hi) as (post & Hin & <-); simpl;
        by rewrite (lookupPost_elem_of _ _ _ Hnodup Hin).
  - intros posts' Hnodup Hperm. unfold normalizeMessages, normalizePins. simpl.
    split; apply list_fmap_ext; intros i id _;
      by rewrite (lookupPost_Permutation _ _ id Hnodup Hperm).
  - intros post. split; [|split; [|split]].
    + intros Hroot. split.
      * unfold normalizeMessage. simpl. by rewrite Hroot.
      * intros Hin%list_elem_of_In. revert Hin. unfold normalizeMessage. simpl.
        rewrite Hroot. simpl.
        destruct (post_id <$> post), (post ≫= post_user_id),
          (post ≫= post_message), (post ≫= post_create_at),
          (post ≫= post_file_ids) as [[|? ?]|]; simpl; intuition discriminate.
    + intros root Hroot Hne. unfold normalizeMessage. simpl. rewrite Hroot.
      simpl. by destruct root.
    + intros Hfiles.
      assert (match post ≫= post_file_ids with
              | Some (f :: fs) => Some (f :: fs)
              | _ => None
              end = None) as Hnone by (by destruct Hfiles as [-> | ->]).
      split.
      * unfold normalizeMessage. simpl. by rewrite Hnone.
      * intros Hin%list_elem_of_In. revert Hin. unfold normalizeMessage. simpl.
        rewrite Hnone. simpl.
        destruct (post_id <$> post), (post ≫= post_user_id),
          (post ≫= post_message), (post ≫= post_create_at),
          (if truthy (post ≫= post_root_id) then post ≫= post_root_id else None);
          simpl; intuition discriminate.
    + intros file files Hfiles. unfold normalizeMessage. simpl. by rewrite Hfiles.
Qed.

Lemma normalization_follows_order_witness :
  let p1 := {| post_id := "p1"; post_user_id := Some "u1";
               post_message := Some "first"; post_create_at := Some 1000;
               post_root_id := Some EmptyString; post_file_ids := Some [] |} in
  let p2 := {| post_id := "p2"; post_user_id := Some "u2";
               post_message := Some "second"; post_create_at := Some 2000;
               post_root_id := Some "p1"; post_file_ids := Some ["f1"] |} in
  let response := {| order := ["p2"; "p1"]; posts := [("p1", p1); ("p2", p2)] |} in
  normalizeMessages {| order := ["p1"; "p2"]; posts := [("p2", p2); ("p1", p1)] |}
  = normalizeMessages {| order := ["p1"; "p2"]; posts := [("p1", p1); ("p2", p2)] |}
  ∧ normalizeMessages response !! 0%nat
    = Some (JObj [("id", JStr "p2"); ("userId", JStr "u2");
                  ("message", JStr "second"); ("createdAt", JNum 2000);
                  ("rootId", JStr "p1"); ("fileIds", JArr [JStr "f1"])])
  ∧ normalizePins response !! 1%nat
    = Some (JObj [("id", JStr "p1"); ("userId", JStr "u1");
                  ("message", JStr "first"); ("createdAt", JNum 1000)])
  ∧ (λ entry, fieldOf entry "id") <$> normalizeMessages response
    = [JStr "p2"; JStr "p1"]
  ∧ (λ entry, fieldOf entry "id") <$> normalizePins response
    = [JStr "p2"; JStr "p1"]
  ∧ fieldOf (normalizeMessage (Some p1)) "rootId" = JUndefined
  ∧ "rootId" ∉ serializedKeys (normalizeMessage (Some p1)).
Proof.
  intros p1 p2 response.
  assert (NoDup (posts response).*1) as Hnodup.
  { simpl. repeat constructor; rewrite ?elem_of_cons, ?elem_of_nil;
      intuition discriminate. }
  assert (∀ id, id ∈ order response →
            ∃ post, (id, post) ∈ posts response ∧ post_id post = id) as Hall.
  { intros id Hid. simpl in Hid.
    rewrite !elem_of_cons, elem_of_nil in Hid.
    destruct Hid as [->|[->|[]]]; [exists p2|exists p1]; simpl;
      rewrite !elem_of_cons; split; auto. }
  split; [|split; [|split; [|split; [|split]]]].
  - apply (normalization_follows_order
             {| order := ["p1"; "p2"]; posts := [("p1", p1); ("p2", p2)] |}).
    + simpl. repeat constructor; rewrite ?elem_of_cons, ?elem_of_nil;
        intuition discriminate.
    + apply perm_swap.
  - refine (proj1 (proj1 (proj1 (proj2 (proj2
              (normalization_follows_order response))) Hnodup)
              0%nat "p2" p2 eq_refl _)).
    simpl. rewrite !elem_of_cons. auto.
  - refine (proj2 (proj1 (proj1 (proj2 (proj2
              (normalization_follows_order response))) Hnodup)
              1%nat "p1" p1 eq_refl _)).
    simpl. rewrite !elem_of_cons. auto.
  - exact (proj1 (proj2 (proj1 (proj2 (proj2
             (normalization_follows_order response))) Hnodup) Hall)).
  - exact (proj2 (proj2 (proj1 (proj2 (proj2
             (normalization_follows_order response))) Hnodup) Hall)).
  - apply (normalization_follows_order
             {| order := ["p1"; "p2"]; posts := [("p1", p1); ("p2", p2)] |}
             ).
    reflexivity.
Defined.

(** C10.  When an id of [order] has no entry in [posts], the [read] and
    [list-pins] normalisations still produce one element per id of
    [order]: the element of a missing id has every field undefined, and it
    is not dropped.  The dispatch does not throw on such a response: it
    resolves with these sequences. *)
Theorem missing_post_keeps_its_place (result : MattermostPostList) :
  length (normalizeMessages result) = length (order result)
  ∧ length (normalizePins result) = length (order result)
  ∧ (∀ i id,
       order result !! i = Some id → lookupPost (posts result) id = None →
       normalizeMessages result !! i
       = Some (JObj [("id", JUndefined); ("userId", JUndefined);
                     ("message", JUndefined); ("createdAt", JUndefined);
                     ("rootId", JUndefined); ("fileIds", JUndefined)])
       ∧ normalizePins result !! i
         = Some (JObj [("id", JUndefined); ("userId", JUndefined);
                       ("message", JUndefined); ("createdAt", JUndefined)]))
  ∧ (∀ (resolveAccount : OpenClawConfig → option string → Result MattermostAccount)
       (remote : Remote) params cfg account channel client name,
       resolveChannelId params = Ok channel →
       resolveClient resolveAccount cfg (dispatchAccount account params)
       = Ok (client, name) →
       (remote [] (GetMattermostChannelPosts client channel
                     (readNumberParam params "limit")
                     (readStringParam params "before")
                     (readStringParam params "after")) = Ok result →
        ∃ res,
          (run remote [] (handleAction resolveAccount "read" params cfg account)).2
          = Ok res
          ∧ fieldOf (details res) "messages" = JArr (normalizeMessages result))
       ∧ (remote [] (GetPinnedMattermostPosts client channel) = Ok result →
          ∃ res,
            (run remote []
               (handleAction resolveAccount "list-pins" params cfg account)).2
            = Ok res
            ∧ fieldOf (details res) "pins" = JArr (normalizePins result))).
Proof.
  split; [|split; [|split]].
  - apply length_fmap.
  - apply length_fmap.
  - intros i id Hi Hmissing. unfold normalizeMessages, normalizePins.
    rewrite !list_lookup_fmap, Hi. simpl. by rewrite Hmissing.
  - intros resolveAccount remote params cfg account channel client name
      Hchannel Hclient.
    split; intros Hres.
    + rewrite (handleAction_read _ _ _ _ _ _ _ Hchannel Hclient). simpl.
      rewrite Hres. eauto.
    + rewrite (handleAction_list_pins _ _ _ _ _ _ _ Hchannel Hclient). simpl.
      rewrite Hres. eauto.
Qed.

Lemma missing_post_keeps_its_place_witness :
  let p1 := {| post_id := "p1"; post_user_id := Some "u1";
               post_message := Some "first"; post_create_at := Some 1000;
               post_root_id := None; post_file_ids := None |} in
  normalizeMessages {| order := ["p1"; "gone"]; posts := [("p1", p1)] |} !! 1%nat
  = Some (JObj [("id", JUndefined); ("userId", JUndefined);
                ("message", JUndefined); ("createdAt", JUndefined);
                ("rootId", JUndefined); ("fileIds", JUndefined)])
  ∧ normalizePins {| order := ["p1"; "gone"]; posts := [("p1", p1)] |} !! 1%nat
    = Some (JObj [("id", JUndefined); ("userId", JUndefined);
                  ("message", JUndefined); ("createdAt", JUndefined)]).
Proof.
  intros p1.
  apply (missing_post_keeps_its_place
           {| order := ["p1"; "gone"]; posts := [("p1", p1)] |}) with "gone";
    reflexivity.
Defined.

(** ** Tool sends *)




(** ** The dispatch as a whole *)

(** One step of a dispatch whose parameters are not known: case analysis
    on what the next reader, the client resolution or the remote gives. *)
Ltac dispatch_step :=
  match goal with
  | |- context [lift ?r] =>
      let E := fresh "E" in destruct r as [?|?] eqn:E; simpl
  | p : (_ * _)%type |- _ => destruct p; simpl
  | |- context [match ?remote ?issued ?c with Ok _ => _ | Err _ => _ end] =>
      let E := fresh "E" in destruct (remote issued c) eqn:E; simpl
  | |- context [if ?b then _ else _] => destruct b; simpl
  end.

Ltac dispatch_cases := dispatch; repeat dispatch_step.

(** X1.  A dispatch issues at most two remote calls, whatever the action,
    the parameters, the configuration and the remote do, and at most one
    unless the action is [react]. *)
Theorem dispatch_issues_at_most_two_calls
    (resolveAccount : OpenClawConfig → option string → Result MattermostAccount)
    (remote : Remote) (action : string) (params : Params) (cfg : OpenClawConfig)
    (account : option string) :
  (length (run remote [] (handleAction resolveAccount action params cfg account)).1
   ≤ 2)%nat
  ∧ (action ≠ "react" →
     (length (run remote [] (handleAction resolveAccount action params cfg account)).1
      ≤ 1)%nat).
Proof.
  case_action action;
    [first [split; [|intros Hne]; dispatch_cases; simpl; lia
           |split; [|done]; dispatch_cases; simpl; lia] ..|].
  rewrite handleAction_unsupported.
  - split; [|intros _]; simpl; lia.
  - unfold actionTable. rewrite !elem_of_cons, elem_of_nil. tauto.
Qed.

(** X2.  Every remote call of a dispatch other than [send] is made with the
    client that [resolveClient] gave for the account of the dispatch: no
    such call is issued when the client cannot be resolved, and none is
    made with another client or through the send collaborator. *)
Theorem non_send_calls_use_resolved_client
    (resolveAccount : OpenClawConfig → option string → Result MattermostAccount)
    (remote : Remote) (action : string) (params : Params) (cfg : OpenClawConfig)
    (account : option string) (c : RemoteCall) :
  action ≠ "send" →
  c ∈ (run remote [] (handleAction resolveAccount action params cfg account)).1 →
  ∃ client name,
    resolveClient resolveAccount cfg (dispatchAccount account params)
    = Ok (client, name)
    ∧ callClient c = Some client.
Proof.
  intros Hsend. case_action action;
    [done
    |(dispatch_cases; rewrite ?elem_of_cons, ?elem_of_nil; intros Hc;
      repeat (destruct Hc as [->|Hc]; [by eauto|]); done) ..|].
  rewrite handleAction_unsupported.
  - simpl. by rewrite elem_of_nil.
  - unfold actionTable. rewrite !elem_of_cons, elem_of_nil. tauto.
Qed.

Lemma non_send_calls_use_resolved_client_witness :
  ∃ client name,
    resolveClient testResolveMattermostAccount
      (mmCfg "bot-tok" "https://mm.test/" None) None = Ok (client, name)
    ∧ callClient (PinMattermostPost
                    {| clientBaseUrl := "https://mm.test";
                       apiBaseUrl := "https://mm.test/api/v4";
                       token := "bot-tok" |} "post-1") = Some client.
Proof.
  refine (non_send_calls_use_resolved_client testResolveMattermostAccount
            testRemote "pin" (<["messageId" := JStr "post-1"]> ∅)
            (mmCfg "bot-tok" "https://mm.test/" None) None
            (PinMattermostPost
               {| clientBaseUrl := "https://mm.test";
                  apiBaseUrl := "https://mm.test/api/v4";
                  token := "bot-tok" |} "post-1") _ _).
  - discriminate.
  - apply list_elem_of_here.
Defined.

(** X3.  A dispatch that resolves has issued at least one remote call, and
    for every action other than [send] its result carries [ok: true]. *)
Theorem resolved_dispatch_called_remote_and_is_ok
    (resolveAccount : OpenClawConfig → option string → Result MattermostAccount)
    (remote : Remote) (action : string) (params : Params) (cfg : OpenClawConfig)
    (account : option string) (issued : list RemoteCall) (res : AgentToolResult) :
  run remote [] (handleAction resolveAccount action params cfg account)
  = (issued, Ok res) →
  issued ≠ []
  ∧ (action ≠ "send" → fieldOf (details res) "ok" = JBool true).
Proof.
  case_action action;
    [(dispatch_cases; intros Hrun;
      first [discriminate Hrun
            |injection Hrun as <- <-; split; [done|]; intros Hne;
             first [reflexivity | by destruct Hne]]) ..|].
  rewrite handleAction_unsupported.
  - simpl. intros [= _ ?].
  - unfold actionTable. rewrite !elem_of_cons, elem_of_nil. tauto.
Qed.

Lemma resolved_dispatch_called_remote_and_is_ok_witness :
  [UnpinMattermostPost
     {| clientBaseUrl := "https://mm.test";
        apiBaseUrl := "https://mm.test/api/v4"; token := "bot-tok" |} "post-1"]
  ≠ []
  ∧ ("unpin" ≠ "send" →
     fieldOf (JObj [("ok", JBool true); ("messageId", JStr "post-1");
                    ("unpinned", JBool true)]) "ok" = JBool true).
Proof.
  exact (resolved_dispatch_called_remote_and_is_ok testResolveMattermostAccount
           testRemote "unpin" (<["messageId" := JStr "post-1"]> ∅)
           (mmCfg "bot-tok" "https://mm.test" None) None _
           (jsonResult (JObj [("ok", JBool true); ("messageId", JStr "post-1");
                              ("unpinned", JBool true)]))
           eq_refl).
Defined.

(** ** Sending *)

Lemma getField_objAssign (fields : list (string * JsValue)) (k k' : string)
    (v : JsValue) :
  getField (objAssign fields k v) k'
  = if String.eqb k k' then v else getField fields k'.
Proof.
  induction fields as [|[k0 v0] rest IH]; simpl; [done|].
  destruct (String.eqb_spec k0 k) as [->|Hne]; simpl.
  - by destruct (String.eqb k k').
  - rewrite IH. destruct (String.eqb_spec k0 k') as [->|?]; [|done].
    destruct (String.eqb_spec k k'); [congruence|done].
Qed.

Lemma getField_objSpread_absent (extra base : list (string * JsValue)) (k : string) :
  k ∉ extra.*1 → getField (objSpread base extra) k = getField base k.
Proof.
  unfold objSpread. revert base.
  induction extra as [|[k0 v0] rest IH]; intros base Hk; simpl in *; [done|].
  apply not_elem_of_cons in Hk as [Hne Hk].
  rewrite IH, getField_objAssign by done.
  destruct (String.eqb_spec k0 k); [congruence|done].
Qed.

Lemma getField_objSpread_present (extra base : list (string * JsValue))
    (k : string) (v : JsValue) :
  NoDup extra.*1 → (k, v) ∈ extra → getField (objSpread base extra) k = v.
Proof.
  revert base.
  induction extra as [|[k0 v0] rest IH]; intros base Hnodup Hin; simpl in *.
  - by apply elem_of_nil in Hin.
  - apply NoDup_cons in Hnodup as [Hfresh Hnodup].
    apply elem_of_cons in Hin as [[= -> ->]|Hin].
    + change (getField (objSpread (objAssign base k0 v0) rest) k0 = v0).
      rewrite getField_objSpread_absent, getField_objAssign by done.
      by rewrite String.eqb_refl.
    + by apply (IH (objAssign base k0 v0)).
Qed.

(** X4.  The result of [send] is [{ok: true, ...result}]: every field of
    what the send collaborator resolved to is in it with its value, and
    [ok] is [true] only as long as the collaborator's result has no [ok]
    of its own, which otherwise replaces it. *)
Theorem send_result_spreads_collaborator_fields
    (resolveAccount : OpenClawConfig → option string → Result MattermostAccount)
    (remote : Remote) (params : Params) (cfg : OpenClawConfig)
    (account : option string) (target message : string)
    (result : list (string * JsValue)) :
  params !! "to" = Some (JStr target) → Str.isBlank target = false →
  params !! "message" = Some (JStr message) →
  remote [] (SendMessageMattermost (Str.trim target) (Str.trim message)
               (dispatchAccount account params) (readStringParamRaw params "media")
               (readStringParam params "replyTo")) = Ok result →
  NoDup result.*1 →
  ∃ res,
    (run remote [] (handleAction resolveAccount "send" params cfg account)).2
    = Ok res
    ∧ (∀ k v, (k, v) ∈ result → fieldOf (details res) k = v)
    ∧ ("ok" ∉ result.*1 → fieldOf (details res) "ok" = JBool true).
Proof.
  intros Hto Hblank Hmsg Hsend Hnodup. dispatch.
  rewrite (readRequired_some _ _ _ Hto Hblank). simpl.
  rewrite (readRequired_allowEmpty_some _ _ _ Hmsg). simpl.
  rewrite Hsend. simpl. eexists. split; [reflexivity|]. simpl. split.
  - intros k v Hin. by apply getField_objSpread_present.
  - intros Hok. by rewrite getField_objSpread_absent.
Qed.

Lemma send_result_spreads_collaborator_fields_witness :
  let params : Params :=
    <["to" := JStr "ch-1"]> (<["message" := JStr "hello world"]> ∅) in
  let result := [("messageId", JStr "new-msg-1"); ("channelId", JStr "ch-1")] in
  ∃ res,
    (run testRemote []
       (handleAction testResolveMattermostAccount "send" params
          (mmCfg "bot-tok" "https://mm.test" None) None)).2 = Ok res
    ∧ (∀ k v, (k, v) ∈ result → fieldOf (details res) k = v)
    ∧ ("ok" ∉ result.*1 → fieldOf (details res) "ok" = JBool true).
Proof.
  intros params result.
  refine (send_result_spreads_collaborator_fields testResolveMattermostAccount
            testRemote params (mmCfg "bot-tok" "https://mm.test" None) None
            "ch-1" "hello world" result _ _ _ _ _); try reflexivity.
  simpl. repeat constructor; rewrite ?elem_of_cons, ?elem_of_nil;
    intuition discriminate.
Defined.

(** ** The account of a dispatch *)

Lemma readStringValue_insert_ne (params : Params) (key other : string)
    (v : JsValue) (trim allowEmpty : bool) :
  other ≠ key →
  readStringValue (<[other := v]> params) key trim allowEmpty
  = readStringValue params key trim allowEmpty.
Proof. intros Hne. unfold readStringValue. by rewrite lookup_insert_ne. Qed.

(** X5.  An account id given to [handleAction] takes precedence over the
    [accountId] parameter: with an explicit account id, even the empty
    string, the dispatch is the same whatever the parameter bag holds
    under [accountId].  Without one, a non-blank [accountId] parameter is
    the account of the dispatch, exactly as if it had been given. *)
Theorem explicit_accountId_shadows_parameter
    (resolveAccount : OpenClawConfig → option string → Result MattermostAccount)
    (action : string) (params : Params) (cfg : OpenClawConfig) :
  (∀ (account : string) (v : JsValue),
     handleAction resolveAccount action (<["accountId" := v]> params) cfg
       (Some account)
     = handleAction resolveAccount action params cfg (Some account))
  ∧ (∀ raw,
       Str.isBlank raw = false →
       handleAction resolveAccount action (<["accountId" := JStr raw]> params)
         cfg None
       = handleAction resolveAccount action params cfg (Some (Str.trim raw))).
Proof.
  split.
  - intros account v.
    unfold handleAction, handleMattermostAction, resolveChannelId,
      readReactionParams, readRequiredStringParam, readStringParam,
      readStringParamRaw, readNumberParam, dispatchAccount. simpl.
    rewrite !readStringValue_insert_ne by done.
    by rewrite !lookup_insert_ne by done.
  - intros raw Hraw.
    assert (dispatchAccount None (<["accountId" := JStr raw]> params)
            = Some (Str.trim raw)) as Haccount.
    { unfold dispatchAccount.
      apply readStringParam_Some; [apply lookup_insert_eq|done]. }
    unfold handleAction, handleMattermostAction. simpl. rewrite Haccount.
    unfold resolveChannelId, readReactionParams, readRequiredStringParam,
      readStringParam, readStringParamRaw, readNumberParam, dispatchAccount.
    rewrite !readStringValue_insert_ne by done.
    by rewrite !lookup_insert_ne by done.
Qed.

Lemma explicit_accountId_shadows_parameter_witness :
  handleAction testResolveMattermostAccount "delete"
    (<["accountId" := JStr " ops "]> (<["messageId" := JStr "post-1"]> ∅))
    (mmCfg "bot-tok" "https://mm.test" None) None
  = handleAction testResolveMattermostAccount "delete"
      (<["messageId" := JStr "post-1"]> ∅)
      (mmCfg "bot-tok" "https://mm.test" None) (Some "ops").
Proof.
  exact (proj2 (explicit_accountId_shadows_parameter testResolveMattermostAccount
                  "delete" (<["messageId" := JStr "post-1"]> ∅)
                  (mmCfg "bot-tok" "https://mm.test" None)) " ops " eq_refl).
Defined.

(** ** Rejected calls and the other actions *)

Lemma handleAction_react
    (resolveAccount : OpenClawConfig → option string → Result MattermostAccount)
    (params : Params) (cfg : OpenClawConfig) (account : option string)
    (messageId emoji : string) (client : MattermostClient) (name : string) :
  params !! "messageId" = Some (JStr messageId) → Str.isBlank messageId = false →
  params !! "emoji" = Some (JStr emoji) → Str.isBlank emoji = false →
  resolveClient resolveAccount cfg (dispatchAccount account params)
  = Ok (client, name) →
  handleAction resolveAccount "react" params cfg account
  = Await (FetchMattermostMe client) (λ botUser,
      if match params !! "remove" with Some (JBool b) => b | _ => false end then
        Await (RemoveMattermostReaction client (user_id botUser)
                 (Str.trim messageId) (Str.trim emoji))
          (λ _, Ret (jsonResult (JObj [("ok", JBool true); ("removed", JBool true);
                                       ("emoji", JStr (Str.trim emoji))])))
      else
        Await (AddMattermostReaction client (user_id botUser)
                 (Str.trim messageId) (Str.trim emoji))
          (λ _, Ret (jsonResult (JObj [("ok", JBool true);
                                       ("added", JStr (Str.trim emoji))])))).
Proof.
  intros Hid Hidb Hemoji Hemojib Hclient. dispatch.
  rewrite (readRequired_some _ _ _ Hid Hidb). simpl.
  rewrite (readReactionParams_some _ _ _ Hemoji Hemojib). simpl.
  rewrite Hclient. simpl.
  by destruct (match params !! "remove" with Some (JBool b) => b | _ => false end).
Qed.

(** X6.  [react] gives no result unless both of its calls resolve.  When
    fetching the bot's identity is rejected, the dispatch rejects with
    that error and no reaction call is issued; when the add-reaction call
    (or, with [remove: true], the remove-reaction call) is rejected, the
    dispatch rejects with that error. *)
Theorem react_rejects_when_a_call_is_rejected
    (resolveAccount : OpenClawConfig → option string → Result MattermostAccount)
    (remote : Remote) (params : Params) (cfg : OpenClawConfig)
    (account : option string) (messageId emoji : string)
    (client : MattermostClient) (name : string) :
  params !! "messageId" = Some (JStr messageId) → Str.isBlank messageId = false →
  params !! "emoji" = Some (JStr emoji) → Str.isBlank emoji = false →
  resolveClient resolveAccount cfg (dispatchAccount account params)
  = Ok (client, name) →
  (∀ e,
     remote [] (FetchMattermostMe client) = Err e →
     run remote [] (handleAction resolveAccount "react" params cfg account)
     = ([FetchMattermostMe client], Err e))
  ∧ (∀ botUser e,
       remote [] (FetchMattermostMe client) = Ok botUser →
       params !! "remove" ≠ Some (JBool true) →
       remote [FetchMattermostMe client]
         (AddMattermostReaction client (user_id botUser) (Str.trim messageId)
            (Str.trim emoji)) = Err e →
       run remote [] (handleAction resolveAccount "react" params cfg account)
       = ([FetchMattermostMe client;
           AddMattermostReaction client (user_id botUser) (Str.trim messageId)
             (Str.trim emoji)], Err e))
  ∧ (∀ botUser e,
       remote [] (FetchMattermostMe client) = Ok botUser →
       params !! "remove" = Some (JBool true) →
       remote [FetchMattermostMe client]
         (RemoveMattermostReaction client (user_id botUser) (Str.trim messageId)
            (Str.trim emoji)) = Err e →
       run remote [] (handleAction resolveAccount "react" params cfg account)
       = ([FetchMattermostMe client;
           RemoveMattermostReaction client (user_id botUser) (Str.trim messageId)
             (Str.trim emoji)], Err e)).
Proof.
  intros Hid Hidb Hemoji Hemojib Hclient.
  rewrite (handleAction_react _ _ _ _ _ _ _ _ Hid Hidb Hemoji Hemojib Hclient).
  simpl. split; [|split].
  - intros e Hme. by rewrite Hme.
  - intros botUser e Hme Hremove Hadd. rewrite Hme.
    destruct (params !! "remove") as [[| |[]| | | |]|]; try congruence;
      simpl; by rewrite Hadd.
  - intros botUser e Hme Hremove Hdel. rewrite Hme, Hremove. simpl.
    by rewrite Hdel.
Qed.

Lemma react_rejects_when_a_call_is_rejected_witness :
  let client := {| clientBaseUrl := "https://mm.test";
                   apiBaseUrl := "https://mm.test/api/v4"; token := "bot-tok" |} in
  let params : Params :=
    <["messageId" := JStr "post-1"]> (<["emoji" := JStr "thumbsup"]> ∅) in
  run (testRemoteRejecting isReactionCall (mkError RemoteApiError "403")) []
    (handleAction testResolveMattermostAccount "react" params
       (mmCfg "bot-tok" "https://mm.test" None) None)
  = ([FetchMattermostMe client;
      AddMattermostReaction client "bot-user-id" "post-1" "thumbsup"],
     Err (mkError RemoteApiError "403")).
Proof.
  intros client params.
  refine (proj1 (proj2 (react_rejects_when_a_call_is_rejected
                   testResolveMattermostAccount
                   (testRemoteRejecting isReactionCall (mkError RemoteApiError "403"))
                   params (mmCfg "bot-tok" "https://mm.test" None) None
                   "post-1" "thumbsup" client "default" _ _ _ _ _))
            {| user_id := "bot-user-id"; user_username := Some "bot" |}
            (mkError RemoteApiError "403") _ _ _); try reflexivity.
  discriminate.
Defined.

(** X7.  [reactions] with a message id issues the one call that lists the
    reactions of that post.  When the call resolves to an array, the result
    carries the message id and one entry per reaction, in the order of the
    remote, with its user id, emoji name and creation time (an empty array
    gives an empty one).  When it resolves to [null], as the server does
    for a post without reactions, the dispatch does not answer with an
    empty list: it rejects with the runtime's [TypeError].  When the call
    is rejected, the dispatch rejects with that error. *)
Theorem reactions_lists_in_remote_order
    (resolveAccount : OpenClawConfig → option string → Result MattermostAccount)
    (remote : Remote) (params : Params) (cfg : OpenClawConfig)
    (account : option string) (messageId : string)
    (client : MattermostClient) (name : string) :
  params !! "messageId" = Some (JStr messageId) → Str.isBlank messageId = false →
  resolveClient resolveAccount cfg (dispatchAccount account params)
  = Ok (client, name) →
  (run remote [] (handleAction resolveAccount "reactions" params cfg account)).1
  = [GetMattermostReactions client (Str.trim messageId)]
  ∧ (∀ reactions,
       remote [] (GetMattermostReactions client (Str.trim messageId))
       = Ok (Some reactions) →
       (run remote [] (handleAction resolveAccount "reactions" params cfg account)).2
       = Ok (jsonResult
               (JObj [("ok", JBool true); ("messageId", JStr (Str.trim messageId));
                      ("reactions", JArr (normalizeReaction <$> reactions))])))
  ∧ (remote [] (GetMattermostReactions client (Str.trim messageId)) = Ok None →
     ∃ e,
       (run remote [] (handleAction resolveAccount "reactions" params cfg account)).2
       = Err e
       ∧ errKind e = TypeError)
  ∧ (∀ e,
       remote [] (GetMattermostReactions client (Str.trim messageId)) = Err e →
       (run remote [] (handleAction resolveAccount "reactions" params cfg account)).2
       = Err e)
  ∧ (∀ reactions : list MattermostReaction,
       length (normalizeReaction <$> reactions) = length reactions
       ∧ ∀ i r,
           reactions !! i = Some r →
           ∃ entry,
             (normalizeReaction <$> reactions) !! i = Some entry
             ∧ fieldOf entry "userId" = optStr (reaction_user_id r)
             ∧ fieldOf entry "emoji" = optStr (reaction_emoji_name r)
             ∧ fieldOf entry "createdAt" = optNum (reaction_create_at r)).
Proof.
  intros Hid Hidb Hclient.
  assert (handleAction resolveAccount "reactions" params cfg account
          = Await (GetMattermostReactions client (Str.trim messageId))
              (λ reactions,
                 prog_bind (lift (mapReactions reactions))
                   (λ entries,
                      Ret (jsonResult
                             (JObj [("ok", JBool true);
                                    ("messageId", JStr (Str.trim messageId));
                                    ("reactions", JArr entries)]))))) as ->.
  { dispatch. rewrite (readRequired_some _ _ _ Hid Hidb). simpl.
    by rewrite Hclient. }
  simpl. split; [|split; [|split; [|split]]].
  - by destruct (remote [] _) as [[reactions|]|e].
  - intros reactions ->. done.
  - intros ->. simpl. eauto.
  - intros e ->. done.
  - intros reactions. split; [apply length_fmap|].
    intros i r Hi. rewrite list_lookup_fmap, Hi. simpl. eauto.
Qed.

Lemma reactions_lists_in_remote_order_witness :
  let client := {| clientBaseUrl := "https://mm.test";
                   apiBaseUrl := "https://mm.test/api/v4"; token := "bot-tok" |} in
  let params : Params := <["messageId" := JStr "post-1"]> ∅ in
  (run testRemote []
     (handleAction testResolveMattermostAccount "reactions" params
        (mmCfg "bot-tok" "https://mm.test" None) None)).2
  = Ok (jsonResult
          (JObj [("ok", JBool true); ("messageId", JStr "post-1");
                 ("reactions",
                  JArr [JObj [("userId", JStr "u1"); ("emoji", JStr "thumbsup");
                              ("createdAt", JNum 1000)]])]))
  ∧ ∃ e,
      (run testRemoteNoReactions []
         (handleAction testResolveMattermostAccount "reactions" params
            (mmCfg "bot-tok" "https://mm.test" None) None)).2
      = Err e
      ∧ errKind e = TypeError.
Proof.
  intros client params. split.
  - exact (proj1 (proj2 (reactions_lists_in_remote_order
                   testResolveMattermostAccount testRemote params
                   (mmCfg "bot-tok" "https://mm.test" None) None "post-1"
                   client "default" eq_refl eq_refl eq_refl)) _ eq_refl).
  - exact (proj1 (proj2 (proj2 (reactions_lists_in_remote_order
                   testResolveMattermostAccount testRemoteNoReactions params
                   (mmCfg "bot-tok" "https://mm.test" None) None "post-1"
                   client "default" eq_refl eq_refl eq_refl))) eq_refl).
Defined.

(** X8.  [edit] with a message id and a message issues the one call that
    updates that post with that message, and answers with what the remote
    returned, not with what was asked: the id and the message of the
    updated post (no message when the post has none).  A rejected call
    rejects the dispatch with its error. *)
Theorem edit_answers_with_the_updated_post
    (resolveAccount : OpenClawConfig → option string → Result MattermostAccount)
    (remote : Remote) (params : Params) (cfg : OpenClawConfig)
    (account : option string) (messageId message : string)
    (client : MattermostClient) (name : string) :
  params !! "messageId" = Some (JStr messageId) → Str.isBlank messageId = false →
  params !! "message" = Some (JStr message) → Str.isBlank message = false →
  resolveClient resolveAccount cfg (dispatchAccount account params)
  = Ok (client, name) →
  run remote [] (handleAction resolveAccount "edit" params cfg account)
  = ([UpdateMattermostPost client (Str.trim messageId) (Str.trim message)],
     match remote []
             (UpdateMattermostPost client (Str.trim messageId) (Str.trim message))
     with
     | Ok updated =>
         Ok (jsonResult
               (JObj [("ok", JBool true); ("messageId", JStr (post_id updated));
                      ("message", optStr (post_message updated))]))
     | Err e => Err e
     end).
Proof.
  intros Hid Hidb Hmsg Hmsgb Hclient. dispatch.
  rewrite (readRequired_some _ _ _ Hid Hidb). simpl.
  rewrite (readRequired_some _ _ _ Hmsg Hmsgb). simpl.
  rewrite Hclient. simpl. by destruct (remote [] _).
Qed.

Lemma edit_answers_with_the_updated_post_witness :
  run testRemote []
    (handleAction testResolveMattermostAccount "edit"
       (<["messageId" := JStr "post-1"]> (<["message" := JStr "updated text"]> ∅))
       (mmCfg "bot-tok" "https://mm.test" None) None)
  = ([UpdateMattermostPost
        {| clientBaseUrl := "https://mm.test";
           apiBaseUrl := "https://mm.test/api/v4"; token := "bot-tok" |}
        "post-1" "updated text"],
     Ok (jsonResult (JObj [("ok", JBool true); ("messageId", JStr "post-1");
                           ("message", JStr "edited")]))).
Proof.
  exact (edit_answers_with_the_updated_post testResolveMattermostAccount
           testRemote
           (<["messageId" := JStr "post-1"]> (<["message" := JStr "updated text"]> ∅))
           (mmCfg "bot-tok" "https://mm.test" None) None "post-1" "updated text"
           {| clientBaseUrl := "https://mm.test";
              apiBaseUrl := "https://mm.test/api/v4"; token := "bot-tok" |}
           "default" eq_refl eq_refl eq_refl eq_refl eq_refl).
Defined.

(** X9.  [delete], [pin] and [unpin] with a message id each issue exactly
    one call, the one of their name on that post, and answer with the
    message id that was asked and their own flag ([deleted], [pinned],
    [unpinned]) set; a rejected call rejects the dispatch with its
    error. *)
Theorem delete_pin_unpin_act_on_the_post
    (resolveAccount : OpenClawConfig → option string → Result MattermostAccount)
    (remote : Remote) (params : Params) (cfg : OpenClawConfig)
    (account : option string) (messageId : string)
    (client : MattermostClient) (name : string) :
  params !! "messageId" = Some (JStr messageId) → Str.isBlank messageId = false →
  resolveClient resolveAccount cfg (dispatchAccount account params)
  = Ok (client, name) →
  let answer (flag : string) :=
    Ok (jsonResult (JObj [("ok", JBool true); ("messageId", JStr (Str.trim messageId));
                          (flag, JBool true)])) in
  run remote [] (handleAction resolveAccount "delete" params cfg account)
  = ([DeleteMattermostPost client (Str.trim messageId)],
     match remote [] (DeleteMattermostPost client (Str.trim messageId)) with
     | Ok _ => answer "deleted"
     | Err e => Err e
     end)
  ∧ run remote [] (handleAction resolveAccount "pin" params cfg account)
    = ([PinMattermostPost client (Str.trim messageId)],
       match remote [] (PinMattermostPost client (Str.trim messageId)) with
       | Ok _ => answer "pinned"
       | Err e => Err e
       end)
  ∧ run remote [] (handleAction resolveAccount "unpin" params cfg account)
    = ([UnpinMattermostPost client (Str.trim messageId)],
       match remote [] (UnpinMattermostPost client (Str.trim messageId)) with
       | Ok _ => answer "unpinned"
       | Err e => Err e
       end).
Proof.
  intros Hid Hidb Hclient answer. repeat split; dispatch;
    rewrite (readRequired_some _ _ _ Hid Hidb); simpl;
    rewrite Hclient; simpl; by destruct (remote [] _).
Qed.

Lemma delete_pin_unpin_act_on_the_post_witness :
  let client := {| clientBaseUrl := "https://mm.test";
                   apiBaseUrl := "https://mm.test/api/v4"; token := "bot-tok" |} in
  run testRemote []
    (handleAction testResolveMattermostAccount "delete"
       (<["messageId" := JStr "post-1"]> ∅)
       (mmCfg "bot-tok" "https://mm.test" None) None)
  = ([DeleteMattermostPost client "post-1"],
     Ok (jsonResult (JObj [("ok", JBool true); ("messageId", JStr "post-1");
                           ("deleted", JBool true)]))).
Proof.
  intros client.
  exact (proj1 (delete_pin_unpin_act_on_the_post testResolveMattermostAccount
                  testRemote (<["messageId" := JStr "post-1"]> ∅)
                  (mmCfg "bot-tok" "https://mm.test" None) None "post-1"
                  client "default" eq_refl eq_refl eq_refl)).
Defined.

(** ** Accounts, gates and the dispatcher *)


Lemma resolveAccount_error_propagates
    (resolveAccount : OpenClawConfig → option string → Result MattermostAccount)
    (cfg : OpenClawConfig) (account : option string) (e : JsError) :
  resolveAccount cfg account = Err e →
  resolveClient resolveAccount cfg account = Err e.
Proof. intros H. unfold resolveClient. by rewrite H. Qed.

Lemma readRequired_error_kind (params : Params) (key : string) (allowEmpty : bool)
    (e : JsError) :
  readRequiredStringParam params key allowEmpty = Err e →
  errKind e = ValidationError.
Proof.
  unfold readRequiredStringParam.
  destruct (readStringValue params key true allowEmpty); [done|].
  by intros [= <-].
Qed.

Lemma readReactionParams_error_kind (params : Params) (msg : string) (e : JsError) :
  readReactionParams params msg = Err e → errKind e = ValidationError.
Proof.
  unfold readReactionParams.
  destruct (readStringParam params "emoji"); [done|].
  by destruct (match params !! "remove" with Some (JBool b) => b | _ => false end);
    intros [= <-].
Qed.

Lemma resolveChannelId_error_kind (params : Params) (e : JsError) :
  resolveChannelId params = Err e → errKind e = ValidationError.
Proof.
  unfold resolveChannelId.
  destruct (readStringParam params "channelId"); [done|].
  apply readRequired_error_kind.
Qed.

Lemma listActions_in_table
    (accountsOf : OpenClawConfig → list MattermostAccount) (cfg : OpenClawConfig)
    (x : string) :
  x ∈ listActions accountsOf cfg → x ∈ actionTable.
Proof.
  destruct (List.filter hasCredentials (accountsOf cfg)) as [|b l] eqn:Hfilter.
  - unfold listActions. rewrite Hfilter. simpl. by rewrite elem_of_nil.
  - assert (b ∈ accountsOf cfg ∧ hasCredentials b = true) as [Hin Hb].
    { rewrite list_elem_of_In. apply filter_In. rewrite Hfilter. by left. }
    rewrite (listActions_gated _ _ _ Hin Hb).
    destruct (createActionGate _ "reactions"), (createActionGate _ "messages"),
      (createActionGate _ "pins"); unfold gatedActions, actionTable; simpl;
      rewrite !elem_of_cons, !elem_of_nil; tauto.
Qed.

(** X11.  Every action that [listActions] advertises is one the dispatcher
    handles: it is one of the nine of the table, and a dispatch of it that
    throws before any remote call throws a validation error or the very
    error of [resolveClient], never the unsupported-action error of the
    dispatcher's last line. *)
Theorem advertised_actions_are_dispatched
    (accountsOf : OpenClawConfig → list MattermostAccount)
    (resolveAccount : OpenClawConfig → option string → Result MattermostAccount)
    (cfg : OpenClawConfig) (x : string) :
  x ∈ listActions accountsOf cfg →
  x ∈ actionTable
  ∧ ∀ params cfg' account e,
      handleAction resolveAccount x params cfg' account = Throw e →
      errKind e = ValidationError
      ∨ resolveClient resolveAccount cfg' (dispatchAccount account params) = Err e.
Proof.
  intros Hx%listActions_in_table. split; [done|].
  intros params cfg' account e.
  case_action x;
    [(dispatch_cases; intros Hthrow;
      first [discriminate Hthrow
            |injection Hthrow as <-;
             first [by right
                   |left; by eauto using readRequired_error_kind,
                      readReactionParams_error_kind,
                      resolveChannelId_error_kind]]) ..|].
  exfalso. unfold actionTable in Hx. rewrite !elem_of_cons, elem_of_nil in Hx.
  tauto.
Qed.

Lemma advertised_actions_are_dispatched_witness :
  "list-pins" ∈ actionTable
  ∧ ∀ params cfg' account e,
      handleAction testResolveMattermostAccount "list-pins" params cfg' account
      = Throw e →
      errKind e = ValidationError
      ∨ resolveClient testResolveMattermostAccount cfg'
          (dispatchAccount account params) = Err e.
Proof.
  apply (advertised_actions_are_dispatched testListEnabledMattermostAccounts
           testResolveMattermostAccount (mmCfg "bot-tok" "https://mm.test" None)).
  change ("list-pins" ∈ actionTable). unfold actionTable.
  do 8 apply list_elem_of_further. apply list_elem_of_here.
Defined.

(** X12.  The dispatcher reads nothing of the configuration but the account
    it resolves: two configurations for which the account resolver answers
    alike are dispatched alike.  In particular the gate flags play no part
    in [handleAction]: closing a gate takes its actions out of
    [listActions] but does not stop their dispatch. *)
Theorem dispatch_does_not_consult_gates
    (resolveAccount : OpenClawConfig → option string → Result MattermostAccount)
    (action : string) (params : Params) (cfg cfg' : OpenClawConfig)
    (account : option string) :
  (∀ acc, resolveAccount cfg acc = resolveAccount cfg' acc) →
  handleAction resolveAccount action params cfg account
  = handleAction resolveAccount action params cfg' account.
Proof.
  intros Hsame.
  unfold handleAction, handleMattermostAction, resolveClient. simpl.
  by rewrite !Hsame.
Qed.

Lemma dispatch_does_not_consult_gates_witness :
  let params : Params :=
    <["messageId" := JStr "post-1"]> (<["emoji" := JStr "thumbsup"]> ∅) in
  let closed := mmCfg "bot-tok" "https://mm.test" (Some {["reactions" := false]}) in
  ("react" ∉ listActions testListEnabledMattermostAccounts closed)
  ∧ handleAction testResolveMattermostAccount "react" params closed None
    = handleAction testResolveMattermostAccount "react" params
        (mmCfg "bot-tok" "https://mm.test" None) None
  ∧ (run testRemote []
       (handleAction testResolveMattermostAccount "react" params closed None)).2
    = Ok (jsonResult (JObj [("ok", JBool true); ("added", JStr "thumbsup")])).
Proof.
  intros params closed. split; [|split].
  - intros Hin%list_elem_of_In. vm_compute in Hin. intuition discriminate.
  - apply dispatch_does_not_consult_gates. reflexivity.
  - reflexivity.
Defined.

(** X13.  A pin of [list-pins] carries the id, user id, message and
    creation time that a message of [read] carries for the same post, and
    never a [rootId] or [fileIds], whatever the post holds. *)
Theorem pins_carry_no_thread_or_files (result : MattermostPostList)
    (i : nat) (id : string) :
  order result !! i = Some id →
  ∃ pin message,
    normalizePins result !! i = Some pin
    ∧ normalizeMessages result !! i = Some message
    ∧ (∀ key, key ∈ ["id"; "userId"; "message"; "createdAt"] →
              fieldOf pin key = fieldOf message key)
    ∧ fieldOf pin "rootId" = JUndefined
    ∧ fieldOf pin "fileIds" = JUndefined
    ∧ ("rootId" ∉ serializedKeys pin) ∧ ("fileIds" ∉ serializedKeys pin).
Proof.
  intros Hi. unfold normalizePins, normalizeMessages.
  rewrite !list_lookup_fmap, Hi. simpl.
  eexists _, _. split; [reflexivity|]. split; [reflexivity|].
  split; [|split; [done|split; [done|]]].
  - intros key. rewrite !elem_of_cons, elem_of_nil.
    intros [->|[->|[->|[->|[]]]]]; reflexivity.
  - unfold normalizePin.
    destruct (lookupPost (posts result) id) as [[pid [u|] [m|] [c|] r f]|];
      simpl; split; intros Hin%list_elem_of_In; simpl in Hin;
      intuition discriminate.
Qed.

Lemma pins_carry_no_thread_or_files_witness :
  let post := {| post_id := "pin-1"; post_user_id := Some "u1";
                 post_message := Some "pinned msg"; post_create_at := Some 2000;
                 post_root_id := Some "root-1";
                 post_file_ids := Some ["file-1"] |} in
  ∃ pin message,
    normalizePins {| order := ["pin-1"]; posts := [("pin-1", post)] |} !! 0%nat
    = Some pin
    ∧ normalizeMessages {| order := ["pin-1"]; posts := [("pin-1", post)] |} !! 0%nat
      = Some message
    ∧ (∀ key, key ∈ ["id"; "userId"; "message"; "createdAt"] →
              fieldOf pin key = fieldOf message key)
    ∧ fieldOf pin "rootId" = JUndefined
    ∧ fieldOf pin "fileIds" = JUndefined
    ∧ ("rootId" ∉ serializedKeys pin) ∧ ("fileIds" ∉ serializedKeys pin).
Proof.
  intros post.
  exact (pins_carry_no_thread_or_files
           {| order := ["pin-1"]; posts := [("pin-1", post)] |} 0 "pin-1" eq_refl).
Defined.
